(** * DTO generator for TypeORM entities: extraction and mapping

    A shallow embedding of the generator script: the line-oriented
    extractor ([relationField], [parseProps]) and the per-property mapping
    to decorators and validators (the body of [props.forEach]), together
    with the variant shipped as [bin/generate-dto.js], which keeps the raw
    type of each property and renders it with [mapType].

    Strings are sequences of code units below 256 (Rocq's [string]); the
    regular expressions of the script are terms of a small regex syntax
    run by a backtracking matcher that follows the ECMAScript rules for
    the constructs the script uses. *)

From Stdlib Require Import String Ascii List Bool Arith Lia Btauto.
Import ListNotations.
Local Open Scope string_scope.
Local Open Scope list_scope.
Local Open Scope nat_scope.

(** ** Characters and character classes *)

Definition code (c : ascii) : nat := nat_of_ascii c.

Definition inRange (lo hi c : ascii) : bool :=
  (code lo <=? code c) && (code c <=? code hi).

(** [\s]: WhiteSpace and LineTerminator code units below 256
    (TAB, LF, VT, FF, CR, SP, NBSP). *)
Definition isSpace (c : ascii) : bool :=
  let n := code c in
  (n =? 9) || (n =? 10) || (n =? 11) || (n =? 12) || (n =? 13)
  || (n =? 32) || (n =? 160).

(** [[A-Za-z0-9_]] *)
Definition isWord (c : ascii) : bool :=
  inRange "A" "Z" c || inRange "a" "z" c || inRange "0" "9" c
  || Ascii.eqb c "_".

(** [[^;\n]] *)
Definition notSemiNl (c : ascii) : bool :=
  negb (Ascii.eqb c ";" || (code c =? 10)).

(** [.] without the [s] flag: anything but a line terminator. *)
Definition isDot (c : ascii) : bool :=
  negb ((code c =? 10) || (code c =? 13)).

Definition isChar (a c : ascii) : bool := Ascii.eqb a c.

(** Canonicalize of the [i] flag, on code units below 256: only the ASCII
    letters change (a code unit at or above 128 never folds onto an ASCII
    one). *)
Definition canonicalize (c : ascii) : ascii :=
  if inRange "a" "z" c then ascii_of_nat (code c - 32) else c.

Definition chEq (ignoreCase : bool) (a b : ascii) : bool :=
  if ignoreCase then Ascii.eqb (canonicalize a) (canonicalize b)
  else Ascii.eqb a b.

(** ** Regular expressions *)

Inductive regex : Type :=
| Chr (p : ascii -> bool)         (* one character of a class *)
| Lit (l : string)                (* literal text *)
| Seq (r1 r2 : regex)
| Alt (r1 r2 : regex)             (* r1|r2, left first *)
| Opt (r : regex)                 (* r?, greedy *)
| Star (p : ascii -> bool)        (* [class]*, greedy *)
| Plus (p : ascii -> bool)        (* [class]+, greedy *)
| Grp (i : nat) (r : regex)       (* capturing group number i *)
| Eol.                            (* $ *)

Record RegExp : Type := mkRegExp { pattern : regex; ignoreCase : bool }.

(** Captures: the most recent binding of a group comes first. *)
Definition caps : Type := list (nat * string).

Fixpoint getCap (i : nat) (c : caps) : option string :=
  match c with
  | [] => None
  | (j, v) :: c' => if i =? j then Some v else getCap i c'
  end.

Definition setCap (i : nat) (v : string) (c : caps) : caps := (i, v) :: c.

(** The text between the start [s] of a match and what is left [s']. *)
Definition consumed (s s' : string) : string :=
  substring 0 (String.length s - String.length s') s.

Section Matcher.
Variable ic : bool.
Variable A : Type.

(** Remainder of [s] after the literal [l], if [s] starts with it. *)
Fixpoint lit (l s : string) : option string :=
  match l with
  | EmptyString => Some s
  | String a l' =>
      match s with
      | String b s' => if chEq ic a b then lit l' s' else None
      | EmptyString => None
      end
  end.

(** Greedy repetition of a class: the longest run first, then one
    character less at a time. *)
Fixpoint starC (p : ascii -> bool) (s : string)
         (k : string -> option A) : option A :=
  match s with
  | String a s' =>
      if p a then
        match starC p s' k with
        | Some x => Some x
        | None => k s
        end
      else k s
  | EmptyString => k s
  end.

(** Backtracking matcher in continuation-passing style: [k] is the rest
    of the pattern; [None] makes the matcher try its next choice. *)
Fixpoint m (r : regex) (s : string) (c : caps)
         (k : string -> caps -> option A) : option A :=
  match r with
  | Chr p =>
      match s with
      | String a s' => if p a then k s' c else None
      | EmptyString => None
      end
  | Lit l =>
      match lit l s with
      | Some s' => k s' c
      | None => None
      end
  | Seq r1 r2 => m r1 s c (fun s' c' => m r2 s' c' k)
  | Alt r1 r2 =>
      match m r1 s c k with
      | Some x => Some x
      | None => m r2 s c k
      end
  | Opt r1 =>
      (* an iteration that consumes nothing is rejected *)
      match m r1 s c (fun s' c' =>
               if String.length s' =? String.length s then None
               else k s' c') with
      | Some x => Some x
      | None => k s c
      end
  | Star p => starC p s (fun s' => k s' c)
  | Plus p =>
      match s with
      | String a s' =>
          if p a then starC p s' (fun s'' => k s'' c) else None
      | EmptyString => None
      end
  | Grp i r1 =>
      m r1 s c (fun s' c' => k s' (setCap i (consumed s s') c'))
  | Eol =>
      match s with
      | EmptyString => k s c
      | String _ _ => None
      end
  end.
End Matcher.

Arguments lit ic l s : assert.
Arguments starC {A} p s k : assert.
Arguments m ic {A} r s c k : assert.

(** Result of a successful search: the text before the match, the match,
    the text after it and the captures. *)
Record MatchResult : Type := mkMatch {
  before : string;
  matched : string;
  after : string;
  groups : caps
}.

Definition matchAt (re : RegExp) (s : string) : option (string * caps) :=
  m (ignoreCase re) (pattern re) s [] (fun s' c => Some (s', c)).

(** Leftmost match: every start position in turn, the end included. *)
Fixpoint execFrom (re : RegExp) (pre s : string) : option MatchResult :=
  match matchAt re s with
  | Some (s', c) => Some (mkMatch pre (consumed s s') s' c)
  | None =>
      match s with
      | String a s' => execFrom re (pre ++ String a "")%string s'
      | EmptyString => None
      end
  end.

(** [str.match(re)] for a regex without the [g] flag. *)
Definition exec (re : RegExp) (s : string) : option MatchResult :=
  execFrom re "" s.

(** [re.test(str)] *)
Definition test (re : RegExp) (s : string) : bool :=
  match exec re s with Some _ => true | None => false end.

(** [match[i]]: [None] is JavaScript's [undefined]. *)
Definition group (i : nat) (mr : MatchResult) : option string :=
  getCap i (groups mr).

(** [str.replace(re, by)] for a regex without the [g] flag. *)
Definition replace (re : RegExp) (by_ : string) (s : string) : string :=
  match exec re s with
  | Some mr => (before mr ++ by_ ++ after mr)%string
  | None => s
  end.

(** ** String methods *)

Definition nl : ascii := ascii_of_nat 10.

(** [str.split('\n')] as the first piece and the others. *)
Fixpoint splitNl (s : string) : string * list string :=
  match s with
  | EmptyString => ("", [])
  | String a s' =>
      let (h, t) := splitNl s' in
      if Ascii.eqb a nl then ("", h :: t) else (String a h, t)
  end.

Definition split (s : string) : list string :=
  let (h, t) := splitNl s in h :: t.

Fixpoint trimStart (s : string) : string :=
  match s with
  | String a s' => if isSpace a then trimStart s' else s
  | EmptyString => ""
  end.

Fixpoint trimEnd (s : string) : string :=
  match s with
  | String a s' =>
      match trimEnd s' with
      | EmptyString => if isSpace a then "" else String a ""
      | t => String a t
      end
  | EmptyString => ""
  end.

Definition trim (s : string) : string := trimEnd (trimStart s).

(** [str.includes(sub)] *)
Fixpoint includes (sub s : string) : bool :=
  prefix sub s
  || match s with
     | String _ s' => includes sub s'
     | EmptyString => false
     end.

(** [str.charAt(0)] and [str.slice(1)] *)
Definition charAt0 (s : string) : string :=
  match s with String a _ => String a "" | EmptyString => "" end.

Definition slice1 (s : string) : string :=
  match s with String _ s' => s' | EmptyString => "" end.

(** [toLowerCase] on code units below 256: ASCII and Latin-1 capitals. *)
Definition lowerChar (c : ascii) : ascii :=
  if inRange "A" "Z" c then ascii_of_nat (code c + 32)
  else if (192 <=? code c) && (code c <=? 222) && negb (code c =? 215)
       then ascii_of_nat (code c + 32)
       else c.

Fixpoint toLowerCase (s : string) : string :=
  match s with
  | String a s' => String (lowerChar a) (toLowerCase s')
  | EmptyString => ""
  end.

(** ** Errors *)

Inductive result (A : Type) : Type :=
| Ok (a : A)
| TypeError (what : string).

Arguments Ok {A} a.
Arguments TypeError {A} what.

Definition bind {A B : Type} (x : result A) (f : A -> result B) : result B :=
  match x with
  | Ok a => f a
  | TypeError e => TypeError e
  end.

Notation "x <- e ;; k" := (bind e (fun x => k))
  (at level 61, e at next level, right associativity).

(** Calling a method on a capture: [undefined] has none. *)
Definition defined (what : string) (v : option string) : result string :=
  match v with
  | Some s => Ok s
  | None => TypeError what
  end.

(** ** The regular expressions of the script *)

Infix ">>" := Seq (at level 61, right associativity).

Definition ws : regex := Star isSpace.

(** [ManyToOne|OneToMany|ManyToMany|OneToOne] *)
Definition kinds : regex :=
  Alt (Lit "ManyToOne")
      (Alt (Lit "OneToMany") (Alt (Lit "ManyToMany") (Lit "OneToOne"))).

(** [/@(ManyToOne|OneToMany|ManyToMany|OneToOne)\s*\(\s*\(\)\s*=>\s*([A-Za-z0-9_]+)\s*[,)]/] *)
Definition relationRe : RegExp :=
  mkRegExp
    (Lit "@"
     >> Grp 1 kinds
     >> ws >> Lit "(" >> ws >> Lit "()" >> ws >> Lit "=>" >> ws
     >> Grp 2 (Plus isWord)
     >> ws >> Chr (fun c => isChar "," c || isChar ")" c))
    false.

(** [/(?:public\s+|protected\s+|private\s+)?([a-zA-Z0-9_]+)\??:\s*([^;\n]+);/] *)
Definition propRe : RegExp :=
  mkRegExp
    (Opt (Alt (Lit "public" >> Plus isSpace)
         (Alt (Lit "protected" >> Plus isSpace)
              (Lit "private" >> Plus isSpace)))
     >> Grp 1 (Plus isWord)
     >> Opt (Chr (isChar "?")) >> Lit ":" >> ws
     >> Grp 2 (Plus notSemiNl)
     >> Lit ";")
    false.

(** [/string|varchar|text/i] *)
Definition stringRe : RegExp :=
  mkRegExp (Alt (Lit "string") (Alt (Lit "varchar") (Lit "text"))) true.

(** [/number|int|decimal|float|double|numeric|smallint|bigint/i] *)
Definition numberRe : RegExp :=
  mkRegExp
    (Alt (Lit "number") (Alt (Lit "int") (Alt (Lit "decimal")
    (Alt (Lit "float") (Alt (Lit "double") (Alt (Lit "numeric")
    (Alt (Lit "smallint") (Lit "bigint"))))))))
    true.

(** [/boolean|true|false/i] *)
Definition booleanRe : RegExp :=
  mkRegExp (Alt (Lit "boolean") (Alt (Lit "true") (Lit "false"))) true.

(** [/Date|datetime|timestamp/i] *)
Definition dateRe : RegExp :=
  mkRegExp (Alt (Lit "Date") (Alt (Lit "datetime") (Lit "timestamp"))) true.

(** [/\[\]$/] *)
Definition bracketsRe : RegExp := mkRegExp (Lit "[]" >> Eol) false.

(** [/Array\</] *)
Definition arrayOfRe : RegExp := mkRegExp (Lit "Array<") false.

(** [/<.*>/] *)
Definition genericRe : RegExp :=
  mkRegExp (Lit "<" >> Star isDot >> Lit ">") false.

(** [a === 'text'] where [a] may be [undefined]. *)
Definition strictEq (a : option string) (b : string) : bool :=
  match a with
  | Some s => String.eqb s b
  | None => false
  end.

(** ** The generator with validators *)

Module Generator.

(** An entry of [props]. *)
Record RawField : Type := mkField {
  name : string;
  type : string;
  isArray : bool;
  isOptional : bool;
  isRelation : bool
}.

Definition relationField (line : string) : result (option RawField) :=
  match exec relationRe line with
  | None => Ok None
  | Some relMatch =>
      let type := group 1 relMatch in
      let target := group 2 relMatch in
      if strictEq type "ManyToOne" || strictEq type "OneToOne" then
        target <- defined "target" target ;;
        Ok (Some (mkField
              (toLowerCase (charAt0 target) ++ slice1 target ++ "Id")%string
              "number" false false true))
      else if strictEq type "OneToMany" || strictEq type "ManyToMany" then
        target <- defined "target" target ;;
        Ok (Some (mkField
              (toLowerCase (charAt0 target) ++ slice1 target ++ "Ids")%string
              "number" true false true))
      else Ok None
  end.

(** The chain of tests on the declared type, first match wins. *)
Definition canonical (type : string) : string :=
  if test stringRe type then "string"
  else if test numberRe type then "number"
  else if test booleanRe type then "boolean"
  else if test dateRe type then "Date"
  else if test bracketsRe type || test arrayOfRe type then "array"
  else "any".

(** One turn of the [for] loop over [lines]. A capture that took no part
    in the match is [undefined]; [propMatch[2].trim()] would then throw,
    and the embedding also refuses an [undefined] name, so that an [Ok]
    result carries strings only. *)
Definition step (props : list RawField) (rawLine : string)
  : result (list RawField) :=
  let line := trim rawLine in
  rel <- relationField line ;;
  match rel with
  | Some rel => Ok (props ++ [rel])
  | None =>
      match exec propRe line with
      | Some propMatch =>
          name <- defined "name" (group 1 propMatch) ;;
          raw <- defined "type" (group 2 propMatch) ;;
          let type := trim raw in
          let isOptional := includes "?" line || false in
          let type := canonical type in
          Ok (props ++ [mkField name type (String.eqb type "array")
                                isOptional false])
      | None => Ok props
      end
  end.

Fixpoint loop (lines : list string) (props : list RawField)
  : result (list RawField) :=
  match lines with
  | [] => Ok props
  | l :: rest => props' <- step props l ;; loop rest props'
  end.

Definition parseProps (entityContent : string) : result (list RawField) :=
  loop (split entityContent) [].

Inductive Decorator : Type := ApiPropertyOptional | ApiProperty.

Inductive Validator : Type :=
| IsOptional | IsNotEmpty
| IsString | IsNumber | IsPositive | IsBoolean | IsDate | IsArray
| TypeNumber.   (* @Type(() => Number) *)

(** What one turn of [props.forEach] appends to [dtoContent]. *)
Record DtoField : Type := mkDto {
  prop : RawField;
  decorators : list Decorator;
  validators : list Validator
}.

Definition typeValidators (p : RawField) : list Validator :=
  if String.eqb (type p) "string" then [IsString]
  else if String.eqb (type p) "number" then
    IsNumber ::
      (if negb (isOptional p) && negb (isArray p) then [IsPositive]
       else [])
  else if String.eqb (type p) "boolean" then [IsBoolean]
  else if String.eqb (type p) "Date" then [IsDate]
  else if String.eqb (type p) "array" then [IsArray]
  else [].

Definition dtoField (p : RawField) : DtoField :=
  let decorators :=
    if isOptional p then [ApiPropertyOptional] else [ApiProperty] in
  let validators :=
    if isOptional p then [IsOptional] else [IsNotEmpty] in
  let validators := validators ++ typeValidators p in
  let validators :=
    if isRelation p then validators ++ [TypeNumber] else validators in
  mkDto p decorators validators.

Definition renderDecorator (n : string) (d : Decorator) : string :=
  match d with
  | ApiPropertyOptional =>
      "  @ApiPropertyOptional({ description: '" ++ n ++ " field' })"
  | ApiProperty =>
      "  @ApiProperty({ description: '" ++ n ++ " field' })"
  end%string.

Definition renderValidator (n : string) (v : Validator) : string :=
  match v with
  | IsOptional => "  @IsOptional()"
  | IsNotEmpty =>
      "  @IsNotEmpty({ message: '" ++ n ++ " should not be empty' })"
  | IsString =>
      "  @IsString({ message: '" ++ n ++ " should be a valid string' })"
  | IsNumber =>
      "  @IsNumber({}, { message: '" ++ n ++ " should be a valid number' })"
  | IsPositive =>
      "  @IsPositive({ message: '" ++ n ++ " should be a positive number' })"
  | IsBoolean =>
      "  @IsBoolean({ message: '" ++ n ++ " should be a valid boolean' })"
  | IsDate =>
      "  @IsDate({ message: '" ++ n ++ " should be a valid date' })"
  | IsArray =>
      "  @IsArray({ message: '" ++ n ++ " should be a valid array' })"
  | TypeNumber => "  @Type(() => Number)"
  end%string.

Definition lf : string := String nl "".

Definition renderField (d : DtoField) : string :=
  let n := name (prop d) in
  (String.concat "" (map (fun x => renderDecorator n x ++ lf) (decorators d))
   ++ String.concat "" (map (fun x => renderValidator n x ++ lf) (validators d))
   ++ "  " ++ n ++ ": " ++ type (prop d)
   ++ (if isArray (prop d) then "[]" else "") ++ ";" ++ lf ++ lf)%string.

(** What the callback of [entityFiles.forEach] does with one file. *)
Inductive Outcome : Type :=
| Skipped                          (* warning, nothing written *)
| Written (fields : list DtoField) (dtoContent : string).

Definition generate (entityContent : string) : result Outcome :=
  props <- parseProps entityContent ;;
  if List.length props =? 0 then Ok Skipped
  else
    let fields := map dtoField props in
    Ok (Written fields (String.concat "" (map renderField fields))).

(** Extractor then mapper. *)
Definition pipeline (entityContent : string) : result (list DtoField) :=
  props <- parseProps entityContent ;;
  Ok (map dtoField props).

End Generator.

(** ** The variant of bin/generate-dto.js *)

Module Bin.

Record Relation : Type := mkRelation { relName : string; relIsArray : bool }.

Definition relationField (line : string) : result (option Relation) :=
  match exec relationRe line with
  | None => Ok None
  | Some relMatch =>
      let type := group 1 relMatch in
      let target := group 2 relMatch in
      if strictEq type "ManyToOne" || strictEq type "OneToOne" then
        target <- defined "target" target ;;
        Ok (Some (mkRelation
              (toLowerCase (charAt0 target) ++ slice1 target ++ "Id")%string
              false))
      else if strictEq type "OneToMany" || strictEq type "ManyToMany" then
        target <- defined "target" target ;;
        Ok (Some (mkRelation
              (toLowerCase (charAt0 target) ++ slice1 target ++ "Ids")%string
              true))
      else Ok None
  end.

Definition mapType (typeRaw propName : string) (isRelation isArray : bool)
  : string :=
  if isRelation then
    (if isArray then propName ++ ": number[];" else propName ++ ": number;")%string
  else
    let t := trim (replace genericRe "" typeRaw) in
    if test stringRe t then (propName ++ ": string;")%string
    else if test numberRe t then (propName ++ ": number;")%string
    else if test booleanRe t then (propName ++ ": boolean;")%string
    else if test dateRe t then (propName ++ ": string;")%string
    else if test bracketsRe t || test arrayOfRe typeRaw
         then (propName ++ ": any[];")%string
    else (propName ++ ": any;")%string.

Record Entry : Type := mkProp {
  name : string;
  typeRaw : string;
  isRelation : bool;
  isArray : bool
}.

Definition step (props : list Entry) (rawLine : string)
  : result (list Entry) :=
  let line := trim rawLine in
  rel <- relationField line ;;
  match rel with
  | Some rel => Ok (props ++ [mkProp (relName rel) "" true (relIsArray rel)])
  | None =>
      match exec propRe line with
      | Some propMatch =>
          name <- defined "name" (group 1 propMatch) ;;
          raw <- defined "type" (group 2 propMatch) ;;
          Ok (props ++ [mkProp name (trim raw) false false])
      | None => Ok props
      end
  end.

Fixpoint loop (lines : list string) (props : list Entry)
  : result (list Entry) :=
  match lines with
  | [] => Ok props
  | l :: rest => props' <- step props l ;; loop rest props'
  end.

Definition extract (entityContent : string) : result (list Entry) :=
  loop (split entityContent) [].

(** One element of [dtoLines], as its three lines. *)
Definition dtoLine (p : Entry) : list string :=
  [ "  @ApiPropertyOptional()";
    "  @IsOptional()";
    ("  " ++ mapType (typeRaw p) (name p) (isRelation p) (isArray p))%string ].

End Bin.

(** ** Reading the generator's output as the specification names it *)

Import Generator.

Definition required (d : DtoField) : bool := negb (isOptional (prop d)).

Definition isPresence (v : Validator) : bool :=
  match v with
  | IsOptional | IsNotEmpty => true
  | _ => false
  end.

Definition presenceRules (d : DtoField) : list Validator :=
  filter isPresence (validators d).

Definition validationRules (d : DtoField) : list Validator :=
  filter (fun v => negb (isPresence v)) (validators d).

(** ** Shapes of lines *)

Fixpoint allChars (p : ascii -> bool) (s : string) : bool :=
  match s with
  | String a s' => p a && allChars p s'
  | EmptyString => true
  end.

Definition headIs (p : ascii -> bool) (s : string) : bool :=
  match s with
  | String a _ => p a
  | EmptyString => false
  end.

(** A non-empty run of [[A-Za-z0-9_]]. *)
Definition isIdentifier (s : string) : bool :=
  headIs isWord s && allChars isWord s.

Inductive Kind : Type := ManyToOne | OneToMany | ManyToMany | OneToOne.

Definition kindName (k : Kind) : string :=
  match k with
  | ManyToOne => "ManyToOne"
  | OneToMany => "OneToMany"
  | ManyToMany => "ManyToMany"
  | OneToOne => "OneToOne"
  end.

Definition toMany (k : Kind) : bool :=
  match k with
  | OneToMany | ManyToMany => true
  | ManyToOne | OneToOne => false
  end.

Definition lowerFirst (s : string) : string :=
  match s with
  | String a s' => String (lowerChar a) s'
  | EmptyString => ""
  end.

(** The name of the field a relation of kind [k] to [target] stands for. *)
Definition relationName (k : Kind) (target : string) : string :=
  (lowerFirst target ++ (if toMany k then "Ids" else "Id"))%string.

(** The line [@Kind(() => X] followed by [,] or [)] and anything. *)
Definition relationLine (k : Kind) (target : string) (sep : ascii)
           (rest : string) : string :=
  ("@" ++ kindName k ++ "(() => " ++ target ++ String sep rest)%string.

(** The line [name: T;] or [name?: T;]. *)
Definition declaration (name : string) (optional : bool) (T : string)
  : string :=
  (name ++ (if optional then "?" else "") ++ ": " ++ T ++ ";")%string.

(** A type expression as the property pattern takes it whole: it starts
    with a non-blank character and has neither [;] nor a line feed. *)
Definition isTypeExpr (T : string) : bool :=
  headIs (fun a => negb (isSpace a)) T && allChars notSemiNl T.

(** A line matches one of the two shapes. *)
Definition recognized (line : string) : bool :=
  test relationRe line || test propRe line.

(** What one line adds to [props]. *)
Definition contribution (rawLine : string) : list RawField :=
  match step [] rawLine with
  | Ok l => l
  | TypeError _ => []
  end.

(** The entry pushed for a relation of kind [k] to [target]. *)
Definition relationEntry (k : Kind) (target : string) : RawField :=
  mkField (relationName k target) "number" (toMany k) false true.

(** The entry pushed for a property line with the given captures. *)
Definition plainEntry (line name raw : string) : RawField :=
  mkField name (canonical (trim raw))
          (String.eqb (canonical (trim raw)) "array")
          (includes "?" line) false.

(** The inputs of the scenarios. *)
Definition clienteLines : string :=
  ("@ManyToOne(() => Client, ...)" ++ String nl " cliente: Client;")%string.

Definition bothShapes : string := "@ManyToOne(() => Client) cliente: Client;".

Definition legacyComment : string := "// legacy: id: number;".

Definition whyComment : string := "id: number; // why?".

Definition threeLines : string :=
  ("id: number;" ++ String nl "name: string;"
   ++ String nl "created_at: Date;")%string.

(** ** Further shapes and readings *)

Inductive Visibility : Type := Public | Protected | Private.

Definition visibilityName (v : Visibility) : string :=
  match v with
  | Public => "public"
  | Protected => "protected"
  | Private => "private"
  end.

(** A pattern that is a word or a choice of words. *)
Fixpoint isWords (r : regex) : bool :=
  match r with
  | Lit _ => true
  | Alt r1 r2 => isWords r1 && isWords r2
  | _ => false
  end.

(** The rules that check the type of a value. *)
Definition isTypeRule (v : Validator) : bool :=
  match v with
  | IsString | IsNumber | IsBoolean | IsDate | IsArray => true
  | _ => false
  end.

(** The last line [renderField] writes before the blank line: the
    property itself. *)
Definition declarationLine (p : RawField) : string :=
  ("  " ++ name p ++ ": " ++ type p
   ++ (if isArray p then "[]" else "") ++ ";")%string.

(** ** The module name given on the command line *)

(** [/([a-z])([A-Z])/g] *)
Definition camelRe : RegExp :=
  mkRegExp (Grp 1 (Chr (inRange "a" "z")) >> Grp 2 (Chr (inRange "A" "Z")))
           false.

(** [$i] in a replacement text: a group that took no part is written as
    nothing. *)
Definition dollar (i : nat) (c : caps) : string :=
  match getCap i c with
  | Some v => v
  | None => ""
  end.

(** [str.replace(re, by)] for a regex with the [g] flag: the matches
    from left to right, each search starting where the last match ended,
    one character further after an empty match. [fuel] bounds the number
    of searches; one more than the length of [s] is enough. *)
Fixpoint replaceAllFuel (re : RegExp) (by_ : caps -> string) (fuel : nat)
         (s : string) : string :=
  match fuel with
  | 0 => s
  | S fuel' =>
      let next :=
        match s with
        | String a s' => String a (replaceAllFuel re by_ fuel' s')
        | EmptyString => ""
        end in
      match matchAt re s with
      | Some (rest, c) =>
          if String.length rest <? String.length s
          then (by_ c ++ replaceAllFuel re by_ fuel' rest)%string
          else (by_ c ++ next)%string
      | None => next
      end
  end.

Definition replaceAll (re : RegExp) (by_ : caps -> string) (s : string)
  : string :=
  replaceAllFuel re by_ (S (String.length s)) s.

(** [rawName.replace(/([a-z])([A-Z])/g, '$1-$2').toLowerCase()] *)
Definition kebabName (rawName : string) : string :=
  toLowerCase
    (replaceAll camelRe (fun c => dollar 1 c ++ "-" ++ dollar 2 c)%string
                rawName).

(** A hyphen between a small ASCII letter and the capital that follows
    it, the pairs taken from left to right without overlap. *)
Fixpoint hyphenate (s : string) : string :=
  match s with
  | String a t =>
      match t with
      | String b r =>
          if inRange "a" "z" a && inRange "A" "Z" b
          then String a (String "-" (String b (hyphenate r)))
          else String a (hyphenate t)
      | EmptyString => String a ""
      end
  | EmptyString => ""
  end.

Fixpoint dropChars (p : ascii -> bool) (s : string) : string :=
  match s with
  | String a s' => if p a then dropChars p s' else String a (dropChars p s')
  | EmptyString => ""
  end.

(** ** Class and file names *)

(** [-] or [_], what [/-|_/] matches: always one code unit. *)
Definition isSeparator (c : ascii) : bool :=
  Ascii.eqb c "-" || Ascii.eqb c "_".

(** [str.split(/-|_/)] as the first piece and the others. *)
Fixpoint splitSeparators (s : string) : string * list string :=
  match s with
  | EmptyString => ("", [])
  | String a s' =>
      let (h, t) := splitSeparators s' in
      if isSeparator a then ("", h :: t) else (String a h, t)
  end.

(** [toUpperCase] on ASCII code units. JavaScript sends some code units
    from 128 on outside the code units below 256, or to two letters;
    what is proved about names assumes ASCII names. *)
Definition upperChar (c : ascii) : ascii :=
  if inRange "a" "z" c then ascii_of_nat (code c - 32) else c.

Fixpoint toUpperCase (s : string) : string :=
  match s with
  | String a s' => String (upperChar a) (toUpperCase s')
  | EmptyString => ""
  end.

Definition isAscii (c : ascii) : bool := code c <? 128.

(** [s.charAt(0).toUpperCase() + s.slice(1)] *)
Definition capitalize (s : string) : string :=
  (toUpperCase (charAt0 s) ++ slice1 s)%string.

Definition toPascalCase (str : string) : string :=
  let (h, t) := splitSeparators str in
  String.concat "" (map capitalize (h :: t)).

Module GeneratorNames.

Definition className (entityBaseName : string) : string :=
  toPascalCase entityBaseName.

Definition createDtoName (entityBaseName : string) : string :=
  ("Create" ++ className entityBaseName ++ "Dto")%string.

Definition updateDtoName (entityBaseName : string) : string :=
  ("Update" ++ className entityBaseName ++ "Dto")%string.

(** The last segment of [createDtoPath] and of [updateDtoPath]. *)
Definition createDtoFile (entityBaseName : string) : string :=
  ("create-" ++ entityBaseName ++ ".dto.ts")%string.

Definition updateDtoFile (entityBaseName : string) : string :=
  ("update-" ++ entityBaseName ++ ".dto.ts")%string.

Definition updateDtoFull (entityBaseName : string) : string :=
  ("import { PartialType } from '@nestjs/mapped-types';" ++ lf
   ++ "import { " ++ createDtoName entityBaseName ++ " } from './"
   ++ createDtoName entityBaseName ++ "';" ++ lf ++ lf
   ++ "export class " ++ updateDtoName entityBaseName
   ++ " extends PartialType(" ++ createDtoName entityBaseName ++ ") {}"
   ++ lf)%string.

End GeneratorNames.

Module BinNames.

Definition className (entityBaseName : string) : string :=
  capitalize entityBaseName.

Definition createDtoName (entityBaseName : string) : string :=
  ("Create" ++ className entityBaseName ++ "Dto")%string.

Definition updateDtoName (entityBaseName : string) : string :=
  ("Update" ++ className entityBaseName ++ "Dto")%string.

Definition createDtoFile (entityBaseName : string) : string :=
  ("create-" ++ entityBaseName ++ ".dto.ts")%string.

Definition updateDtoContent (entityBaseName : string) : string :=
  ("import { PartialType } from '@nestjs/mapped-types';" ++ lf
   ++ "import { " ++ createDtoName entityBaseName ++ " } from './"
   ++ createDtoName entityBaseName ++ "';" ++ lf ++ lf
   ++ "export class " ++ updateDtoName entityBaseName
   ++ " extends PartialType(" ++ createDtoName entityBaseName ++ ") {}"
   ++ lf)%string.

End BinNames.

(** What one line adds to [props] in bin/generate-dto.js. *)
Definition binContribution (rawLine : string) : list Bin.Entry :=
  match Bin.step [] rawLine with
  | Ok l => l
  | TypeError _ => []
  end.

(** An entry of the generator and an entry of bin/generate-dto.js that
    stand for the same field. *)
Definition sameField (f : RawField) (b : Bin.Entry) : Prop :=
  name f = Bin.name b
  /\ isRelation f = Bin.isRelation b
  /\ (if isRelation f
      then isArray f = Bin.isArray b /\ Bin.typeRaw b = ""
      else type f = canonical (Bin.typeRaw b) /\ Bin.isArray b = false).

(** The TypeScript type bin/generate-dto.js writes for a type name of
    the generator. *)
Definition writtenType (type : string) : string :=
  if String.eqb type "Date" then "string"
  else if String.eqb type "array" then "any[]"
  else type.

(** ** The create DTO file *)

(** [set.add(x)] on a [Set] kept in insertion order. *)
Definition setAdd (x : string) (s : list string) : list string :=
  if existsb (String.eqb x) s then s else s ++ [x].

Definition validatorImports : list string :=
  fold_left (fun s x => setAdd x s)
    ["IsOptional"; "IsNotEmpty"; "ApiProperty"; "ApiPropertyOptional";
     "IsString"; "IsNumber"; "IsPositive"; "IsBoolean"; "IsDate";
     "IsArray"; "Type"]
    [].

Definition createDtoFull (entityBaseName dtoContent : string) : string :=
  ("import { ApiProperty, ApiPropertyOptional } from '@nestjs/swagger';"
   ++ lf ++ "import { Type } from 'class-transformer';" ++ lf
   ++ "import { " ++ String.concat ", " validatorImports
   ++ " } from 'class-validator';" ++ lf ++ lf
   ++ "export class " ++ GeneratorNames.createDtoName entityBaseName
   ++ " {" ++ lf ++ lf ++ dtoContent ++ "}" ++ lf)%string.

(** The name written after [@] for a decorator and for a validator. *)
Definition decoratorName (d : Decorator) : string :=
  match d with
  | ApiPropertyOptional => "ApiPropertyOptional"
  | ApiProperty => "ApiProperty"
  end.

Definition validatorName (v : Validator) : string :=
  match v with
  | IsOptional => "IsOptional"
  | IsNotEmpty => "IsNotEmpty"
  | IsString => "IsString"
  | IsNumber => "IsNumber"
  | IsPositive => "IsPositive"
  | IsBoolean => "IsBoolean"
  | IsDate => "IsDate"
  | IsArray => "IsArray"
  | TypeNumber => "Type"
  end.

(** ** Declarative reading of a match *)

Inductive matches (ic : bool)
  : regex -> string -> caps -> string -> caps -> Prop :=
| MChr p a s c :
    p a = true -> matches ic (Chr p) (String a s) c s c
| MLit l s s' c :
    lit ic l s = Some s' -> matches ic (Lit l) s c s' c
| MSeq r1 r2 s c s1 c1 s2 c2 :
    matches ic r1 s c s1 c1 -> matches ic r2 s1 c1 s2 c2 ->
    matches ic (Seq r1 r2) s c s2 c2
| MAltL r1 r2 s c s' c' :
    matches ic r1 s c s' c' -> matches ic (Alt r1 r2) s c s' c'
| MAltR r1 r2 s c s' c' :
    matches ic r2 s c s' c' -> matches ic (Alt r1 r2) s c s' c'
| MOptSome r s c s' c' :
    matches ic r s c s' c' -> matches ic (Opt r) s c s' c'
| MOptNone r s c :
    matches ic (Opt r) s c s c
| MStar p u s c :
    allChars p u = true -> matches ic (Star p) (u ++ s)%string c s c
| MPlus p u s c :
    headIs p u = true -> allChars p u = true ->
    matches ic (Plus p) (u ++ s)%string c s c
| MGrp i r s c s' c' :
    matches ic r s c s' c' ->
    matches ic (Grp i r) s c s' (setCap i (consumed s s') c')
| MEol c :
    matches ic Eol "" c "" c.

(** ** Strings *)

Ltac inv H := inversion H; subst; clear H.

Ltac inv_matches :=
  repeat match goal with
    | H : matches _ (Seq _ _) _ _ _ _ |- _ => inv H
    | H : matches _ (Grp _ _) _ _ _ _ |- _ => inv H
    | H : matches _ (Alt _ _) _ _ _ _ |- _ => inv H
    | H : matches _ (Lit _) _ _ _ _ |- _ => inv H
    | H : matches _ (Star _) _ _ _ _ |- _ => inv H
    | H : matches _ (Plus _) _ _ _ _ |- _ => inv H
    | H : matches _ (Chr _) _ _ _ _ |- _ => inv H
    | H : matches _ (Opt _) _ _ _ _ |- _ => inv H
    end.

Lemma strlen_app (u v : string) :
  String.length (u ++ v) = String.length u + String.length v.
Proof. induction u as [|a u IH]; simpl; [reflexivity | now rewrite IH]. Qed.

Lemma substring_app (u v : string) :
  substring 0 (String.length u) (u ++ v) = u.
Proof.
  induction u as [|a u IH]; simpl.
  - destruct v; reflexivity.
  - now rewrite IH.
Qed.

Lemma consumed_app (u v : string) : consumed (u ++ v) v = u.
Proof.
  unfold consumed. rewrite strlen_app.
  replace (String.length u + String.length v - String.length v)
    with (String.length u) by lia.
  apply substring_app.
Qed.

Lemma consumed_eq (s u v : string) : s = (u ++ v)%string -> consumed s v = u.
Proof. intros ->. apply consumed_app. Qed.

Lemma app_assoc_s (a b c : string) :
  ((a ++ b) ++ c = a ++ (b ++ c))%string.
Proof. induction a as [|x a IH]; simpl; [reflexivity | now rewrite IH]. Qed.

(** ** The matcher against the declarative reading *)

Lemma lit_exact (l s s' : string) :
  lit false l s = Some s' -> s = (l ++ s')%string.
Proof.
  revert s. induction l as [|a l IH]; intros s H; simpl in *.
  - now inv H.
  - destruct s as [|b s]; [discriminate|].
    unfold chEq in H. destruct (Ascii.eqb a b) eqn:E; [|discriminate].
    apply Ascii.eqb_eq in E. subst b. f_equal. now apply IH.
Qed.

Lemma lit_app (l s : string) : lit false l (l ++ s) = Some s.
Proof.
  induction l as [|a l IH]; simpl; [reflexivity|].
  unfold chEq. now rewrite Ascii.eqb_refl.
Qed.

Lemma starC_sound {A} (p : ascii -> bool) (s : string)
      (k : string -> option A) (x : A) :
  starC p s k = Some x ->
  exists u s', s = (u ++ s')%string /\ allChars p u = true /\ k s' = Some x.
Proof.
  induction s as [|a s IH]; simpl; intros H.
  - exists ""%string, ""%string. auto.
  - destruct (p a) eqn:Pa.
    + destruct (starC p s k) as [y|] eqn:E.
      * inv H. destruct (IH eq_refl) as (u & s' & -> & Hu & Hk).
        exists (String a u), s'. simpl. rewrite Pa, Hu. auto.
      * exists ""%string, (String a s). auto.
    + exists ""%string, (String a s). auto.
Qed.

Lemma m_sound {A} (ic : bool) (r : regex) :
  forall (s : string) (c : caps) (k : string -> caps -> option A) (x : A),
    m ic r s c k = Some x ->
    exists s' c', matches ic r s c s' c' /\ k s' c' = Some x.
Proof.
  induction r as [p|l|r1 IH1 r2 IH2|r1 IH1 r2 IH2|r IH|p|p|i r IH|];
    intros s c k x H; simpl in H.
  - destruct s as [|a s]; [discriminate|].
    destruct (p a) eqn:Pa; [|discriminate].
    exists s, c. split; [now constructor | assumption].
  - destruct (lit ic l s) as [s'|] eqn:E; [|discriminate].
    exists s', c. split; [now constructor | assumption].
  - destruct (IH1 _ _ _ _ H) as (s1 & c1 & M1 & H1).
    destruct (IH2 _ _ _ _ H1) as (s2 & c2 & M2 & H2).
    exists s2, c2. split; [econstructor; eassumption | assumption].
  - destruct (m ic r1 s c k) as [y|] eqn:E.
    + inv H. destruct (IH1 _ _ _ _ E) as (s' & c' & M1 & H1).
      exists s', c'. split; [now apply MAltL | assumption].
    + destruct (IH2 _ _ _ _ H) as (s' & c' & M2 & H2).
      exists s', c'. split; [now apply MAltR | assumption].
  - match type of H with
    | match ?e with _ => _ end = _ => destruct e as [y|] eqn:E
    end.
    + inv H. destruct (IH _ _ _ _ E) as (s' & c' & M1 & H1).
      destruct (String.length s' =? String.length s); [discriminate|].
      exists s', c'. split; [now apply MOptSome | assumption].
    + exists s, c. split; [apply MOptNone | assumption].
  - destruct (starC_sound _ _ _ _ H) as (u & s' & -> & Hu & Hk).
    exists s', c. split; [now constructor | assumption].
  - destruct s as [|a s]; [discriminate|].
    destruct (p a) eqn:Pa; [|discriminate].
    destruct (starC_sound _ _ _ _ H) as (u & s' & -> & Hu & Hk).
    exists s', c. split; [|assumption].
    apply (MPlus ic p (String a u) s' c); simpl; [assumption|].
    now rewrite Pa, Hu.
  - destruct (IH _ _ _ _ H) as (s' & c' & M1 & H1).
    exists s', (setCap i (consumed s s') c').
    split; [now constructor | assumption].
  - destruct s as [|a s]; [|discriminate].
    exists ""%string, c. split; [constructor | assumption].
Qed.

Lemma matchAt_sound (re : RegExp) (s s' : string) (c : caps) :
  matchAt re s = Some (s', c) ->
  matches (ignoreCase re) (pattern re) s [] s' c.
Proof.
  unfold matchAt. intros H.
  destruct (m_sound _ _ _ _ _ _ H) as (s1 & c1 & M & E). now inv E.
Qed.

Lemma execFrom_sound (re : RegExp) (s : string) :
  forall (pre : string) (mr : MatchResult),
    execFrom re pre s = Some mr ->
    exists s1,
      matches (ignoreCase re) (pattern re) s1 [] (after mr) (groups mr)
      /\ (pre ++ s = before mr ++ s1)%string
      /\ matched mr = consumed s1 (after mr).
Proof.
  induction s as [|a s IH]; intros pre mr H; simpl in H.
  - destruct (matchAt re "") as [[s' c]|] eqn:E; [|discriminate].
    inv H. simpl. exists ""%string. auto using matchAt_sound.
  - destruct (matchAt re (String a s)) as [[s' c]|] eqn:E.
    + inv H. simpl. exists (String a s). auto using matchAt_sound.
    + destruct (IH _ _ H) as (s1 & M & E1 & E2).
      exists s1. rewrite <- E1, app_assoc_s. auto.
Qed.

Lemma exec_sound (re : RegExp) (s : string) (mr : MatchResult) :
  exec re s = Some mr ->
  exists s1,
    matches (ignoreCase re) (pattern re) s1 [] (after mr) (groups mr)
    /\ s = (before mr ++ s1)%string
    /\ matched mr = consumed s1 (after mr).
Proof. intros H. exact (execFrom_sound re s "" mr H). Qed.

(** A match found at the very start is the leftmost one. *)
Lemma exec_at_start (re : RegExp) (s s' : string) (c : caps) :
  matchAt re s = Some (s', c) ->
  exec re s = Some (mkMatch "" (consumed s s') s' c).
Proof.
  intros H. unfold exec. destruct s; simpl; now rewrite H.
Qed.

(** ** Greedy repetition that succeeds on its longest run *)

Lemma starC_greedy {A} (p : ascii -> bool) (u v : string)
      (k : string -> option A) (x : A) :
  allChars p u = true -> headIs p v = false -> k v = Some x ->
  starC p (u ++ v) k = Some x.
Proof.
  intros Hu Hv Hk. induction u as [|a u IH]; simpl in *.
  - destruct v as [|b v]; simpl in *; [assumption|]. now rewrite Hv.
  - apply andb_true_iff in Hu as [Pa Hu]. now rewrite Pa, (IH Hu).
Qed.

Lemma m_Plus_greedy {A} (ic : bool) (p : ascii -> bool) (u v : string)
      (c : caps) (k : string -> caps -> option A) (x : A) :
  headIs p u = true -> allChars p u = true -> headIs p v = false ->
  k v c = Some x ->
  m ic (Plus p) (u ++ v) c k = Some x.
Proof.
  intros Hh Hu Hv Hk. destruct u as [|a u]; simpl in *; [discriminate|].
  rewrite Hh. apply andb_true_iff in Hu as [_ Hu].
  now apply (starC_greedy p u v (fun s'' => k s'' c)).
Qed.

Lemma m_Grp_Plus_greedy {A} (ic : bool) (i : nat) (p : ascii -> bool)
      (u v : string) (c : caps) (k : string -> caps -> option A) (x : A) :
  headIs p u = true -> allChars p u = true -> headIs p v = false ->
  k v (setCap i u c) = Some x ->
  m ic (Grp i (Plus p)) (u ++ v) c k = Some x.
Proof.
  intros Hh Hu Hv Hk. simpl m.
  change (m ic (Plus p) (u ++ v) c
            (fun s' c' => k s' (setCap i (consumed (u ++ v) s') c'))
          = Some x).
  apply m_Plus_greedy; try assumption. now rewrite consumed_app.
Qed.

(** ** What the two line patterns capture *)

Lemma relation_captures (line : string) (mr : MatchResult) :
  exec relationRe line = Some mr ->
  exists (k : Kind) (target : string),
    group 1 mr = Some (kindName k) /\ group 2 mr = Some target
    /\ isIdentifier target = true.
Proof.
  intros H. destruct (exec_sound _ _ _ H) as (s1 & M & _ & _).
  unfold group. destruct mr as [b mt a g]. simpl in *.
  unfold ws, kinds in M. inv_matches; simpl;
    match goal with
    | H : lit false ?l ?s = Some ?s' |- context [consumed ?s ?s'] =>
        rewrite (consumed_eq s l s' (lit_exact _ _ _ H))
    end;
    rewrite consumed_app;
    [ exists ManyToOne | exists OneToMany | exists ManyToMany
    | exists OneToOne ];
    eexists; (split; [reflexivity|]); (split; [reflexivity|]);
    unfold isIdentifier;
    match goal with
    | H1 : headIs _ _ = true, H2 : allChars _ _ = true |- _ =>
        now rewrite H1, H2
    end.
Qed.

Lemma property_captures (line : string) (mr : MatchResult) :
  exec propRe line = Some mr ->
  exists (name raw : string),
    group 1 mr = Some name /\ group 2 mr = Some raw
    /\ isIdentifier name = true
    /\ headIs notSemiNl raw = true /\ allChars notSemiNl raw = true.
Proof.
  intros H. destruct (exec_sound _ _ _ H) as (s1 & M & _ & _).
  unfold group. destruct mr as [b mt a g]. simpl in *.
  unfold ws in M. inv_matches; simpl; rewrite !consumed_app;
    do 2 eexists; (split; [reflexivity|]); (split; [reflexivity|]);
    unfold isIdentifier;
    repeat match goal with
      | H : _ = true |- _ => rewrite H; clear H
      end; auto.
Qed.

(** ** One turn of the extraction loop *)

Lemma lowerFirst_concat (target suffix : string) :
  (toLowerCase (charAt0 target) ++ slice1 target ++ suffix
   = lowerFirst target ++ suffix)%string.
Proof. destruct target; reflexivity. Qed.

Lemma relationField_captured (line : string) (mr : MatchResult)
      (k : Kind) (target : string) :
  exec relationRe line = Some mr ->
  group 1 mr = Some (kindName k) -> group 2 mr = Some target ->
  relationField line = Ok (Some (relationEntry k target))
  /\ Bin.relationField line
     = Ok (Some (Bin.mkRelation (relationName k target) (toMany k))).
Proof.
  intros E G1 G2. unfold relationField, Bin.relationField.
  rewrite E, G1, G2. unfold relationEntry, relationName.
  destruct k; simpl; rewrite lowerFirst_concat; auto.
Qed.

Lemma relationField_matched (line : string) (mr : MatchResult) :
  exec relationRe line = Some mr ->
  exists (k : Kind) (target : string),
    isIdentifier target = true
    /\ relationField line = Ok (Some (relationEntry k target))
    /\ Bin.relationField line
       = Ok (Some (Bin.mkRelation (relationName k target) (toMany k))).
Proof.
  intros E. destruct (relation_captures _ _ E) as (k & t & G1 & G2 & I).
  exists k, t. split; [assumption|].
  now apply (relationField_captured line mr).
Qed.

Lemma relationField_unmatched (line : string) :
  exec relationRe line = None ->
  relationField line = Ok None /\ Bin.relationField line = Ok None.
Proof.
  intros E. unfold relationField, Bin.relationField. now rewrite E.
Qed.

Lemma step_relation (props : list RawField) (rawLine : string)
      (rel : RawField) :
  relationField (trim rawLine) = Ok (Some rel) ->
  step props rawLine = Ok (props ++ [rel]).
Proof. intros E. unfold step. now rewrite E. Qed.

Lemma step_plain (props : list RawField) (rawLine : string)
      (mr : MatchResult) (name raw : string) :
  exec relationRe (trim rawLine) = None ->
  exec propRe (trim rawLine) = Some mr ->
  group 1 mr = Some name -> group 2 mr = Some raw ->
  step props rawLine = Ok (props ++ [plainEntry (trim rawLine) name raw]).
Proof.
  intros E1 E2 G1 G2. unfold step.
  destruct (relationField_unmatched _ E1) as [-> _]. simpl.
  rewrite E2, G1, G2. simpl. unfold plainEntry.
  now rewrite orb_false_r.
Qed.

Lemma step_skip (props : list RawField) (rawLine : string) :
  exec relationRe (trim rawLine) = None ->
  exec propRe (trim rawLine) = None ->
  step props rawLine = Ok props.
Proof.
  intros E1 E2. unfold step.
  destruct (relationField_unmatched _ E1) as [-> _]. simpl.
  now rewrite E2.
Qed.

(** Every turn succeeds and appends what the line contributes: one entry
    when the line is recognized, none otherwise. *)
Lemma step_total (props : list RawField) (rawLine : string) :
  step props rawLine = Ok (props ++ contribution rawLine)
  /\ List.length (contribution rawLine)
     = (if recognized (trim rawLine) then 1 else 0).
Proof.
  unfold contribution, recognized, test.
  destruct (exec relationRe (trim rawLine)) as [mr|] eqn:E1.
  - destruct (relationField_matched _ _ E1) as (k & t & _ & R & _).
    rewrite (step_relation props _ _ R), (step_relation [] _ _ R).
    auto.
  - destruct (exec propRe (trim rawLine)) as [mr|] eqn:E2.
    + destruct (property_captures _ _ E2) as (n & raw & G1 & G2 & _).
      rewrite (step_plain props _ _ _ _ E1 E2 G1 G2).
      rewrite (step_plain [] _ _ _ _ E1 E2 G1 G2). auto.
    + rewrite (step_skip props _ E1 E2), (step_skip [] _ E1 E2).
      now rewrite app_nil_r.
Qed.

Lemma loop_total (lines : list string) :
  forall props : list RawField,
    loop lines props = Ok (props ++ flat_map contribution lines).
Proof.
  induction lines as [|l rest IH]; intros props; simpl.
  - now rewrite app_nil_r.
  - destruct (step_total props l) as [-> _]. simpl.
    rewrite IH. now rewrite <- app_assoc.
Qed.

Lemma parseProps_total (content : string) :
  parseProps content = Ok (flat_map contribution (split content)).
Proof. unfold parseProps. now rewrite loop_total. Qed.

Lemma contribution_length (lines : list string) :
  List.length (flat_map contribution lines)
  = List.length (filter (fun l => recognized (trim l)) lines).
Proof.
  induction lines as [|l rest IH]; simpl; [reflexivity|].
  rewrite length_app, IH.
  destruct (step_total [] l) as [_ ->].
  destruct (recognized (trim l)); reflexivity.
Qed.

Lemma split_app (a b : string) :
  split (a ++ String nl b) = split a ++ split b.
Proof.
  unfold split. induction a as [|x a IH]; simpl.
  - destruct (splitNl b) as [h t]. reflexivity.
  - destruct (splitNl (a ++ String nl b)) as [h t].
    destruct (splitNl a) as [ha ta].
    destruct (splitNl b) as [hb tb].
    destruct (Ascii.eqb x nl); simpl in *.
    + now rewrite IH.
    + inv IH. reflexivity.
Qed.

(** ** Lines of the two shapes are matched at their start *)

Lemma m_Seq {A} (ic : bool) (r1 r2 : regex) (s : string) (c : caps)
      (k : string -> caps -> option A) :
  m ic (r1 >> r2) s c k = m ic r1 s c (fun s' c' => m ic r2 s' c' k).
Proof. reflexivity. Qed.

Lemma m_Lit_app {A} (l s : string) (c : caps)
      (k : string -> caps -> option A) :
  m false (Lit l) (l ++ s) c k = k s c.
Proof. simpl. now rewrite lit_app. Qed.

Lemma m_Star_greedy {A} (ic : bool) (p : ascii -> bool) (u v : string)
      (c : caps) (k : string -> caps -> option A) (x : A) :
  allChars p u = true -> headIs p v = false -> k v c = Some x ->
  m ic (Star p) (u ++ v) c k = Some x.
Proof.
  intros Hu Hv Hk. simpl.
  now apply (starC_greedy p u v (fun s' => k s' c)).
Qed.

Lemma m_Star_none {A} (ic : bool) (p : ascii -> bool) (s : string)
      (c : caps) (k : string -> caps -> option A) :
  headIs p s = false -> m ic (Star p) s c k = k s c.
Proof. intros H. destruct s as [|a s]; simpl in *; [|rewrite H]; reflexivity. Qed.

Lemma m_Plus_fail {A} (ic : bool) (p : ascii -> bool) (s : string)
      (c : caps) (k : string -> caps -> option A) :
  headIs p s = false -> m ic (Plus p) s c k = None.
Proof. intros H. destruct s as [|a s]; simpl in *; [|rewrite H]; reflexivity. Qed.

Lemma m_Opt_skip {A} (ic : bool) (r : regex) (s : string) (c : caps)
      (k : string -> caps -> option A) :
  (forall k' : string -> caps -> option A, m ic r s c k' = None) -> m ic (Opt r) s c k = k s c.
Proof. intros H. simpl. now rewrite H. Qed.

Lemma m_Opt_char {A} (ic : bool) (a b : ascii) (s : string) (c : caps)
      (k : string -> caps -> option A) (x : A) :
  (if Ascii.eqb a b then k s c else k (String b s) c) = Some x ->
  m ic (Opt (Chr (isChar a))) (String b s) c k = Some x.
Proof.
  simpl. unfold isChar. destruct (Ascii.eqb a b); intros H; [|assumption].
  replace (String.length s =? S (String.length s)) with false
    by (symmetry; apply Nat.eqb_neq; lia).
  now rewrite H.
Qed.

Lemma m_kinds {A} (k : Kind) (s : string) (c : caps)
      (K : string -> caps -> option A) :
  m false kinds (kindName k ++ s) c K = K s c.
Proof. destruct k; simpl; now destruct (K s c). Qed.

Lemma m_kind {A} (k : Kind) (s : string) (c : caps)
      (K : string -> caps -> option A) :
  m false (Grp 1 kinds) (kindName k ++ s) c K
  = K s (setCap 1 (kindName k) c).
Proof.
  change (m false kinds (kindName k ++ s) c
            (fun s' c' => K s' (setCap 1 (consumed (kindName k ++ s) s') c'))
          = K s (setCap 1 (kindName k) c)).
  rewrite m_kinds. now rewrite consumed_app.
Qed.

Lemma word_not_space (a : ascii) : isWord a = true -> isSpace a = false.
Proof.
  destruct a as [[] [] [] [] [] [] [] []]; vm_compute; congruence.
Qed.

(** A visibility keyword is not taken from the start of an identifier
    that is followed by something else than a blank. *)
Lemma modifier_lit (l tail : string) :
  allChars isWord l = true ->
  headIs (fun a => isWord a || isSpace a) tail = false ->
  forall name : string,
    allChars isWord name = true ->
    match lit false l (name ++ tail) with
    | Some s' => headIs isSpace s' = false
    | None => True
    end.
Proof.
  intros Hl Ht. induction l as [|x l IH]; intros name Hn.
  - simpl lit. destruct name as [|a name]; simpl in *.
    + destruct tail as [|b tail]; simpl in *; [reflexivity|].
      now apply orb_false_iff in Ht.
    + apply andb_true_iff in Hn as [Ha _]. now apply word_not_space.
  - simpl in Hl. apply andb_true_iff in Hl as [Hx Hl].
    destruct name as [|a name]; simpl in *.
    + destruct tail as [|b tail]; simpl in *; [exact I|].
      unfold chEq. destruct (Ascii.eqb x b) eqn:E; [|exact I].
      apply Ascii.eqb_eq in E. subst b.
      rewrite Hx in Ht. discriminate.
    + apply andb_true_iff in Hn as [_ Hn].
      destruct (Ascii.eqb x a); [|exact I]. now apply IH.
Qed.

Lemma modifier_fails {A} (l name tail : string) (c : caps)
      (k : string -> caps -> option A) :
  allChars isWord l = true -> allChars isWord name = true ->
  headIs (fun a => isWord a || isSpace a) tail = false ->
  m false (Lit l >> Plus isSpace) (name ++ tail) c k = None.
Proof.
  intros Hl Hn Ht.
  pose proof (modifier_lit l tail Hl Ht name Hn) as H.
  change (match lit false l (name ++ tail) with
          | Some s' => m false (Plus isSpace) s' c k
          | None => None
          end = None).
  destruct (lit false l (name ++ tail)) as [s'|]; [|reflexivity].
  now apply m_Plus_fail.
Qed.

Lemma m_modifiers_skip {A} (name tail : string) (c : caps)
      (k : string -> caps -> option A) :
  allChars isWord name = true ->
  headIs (fun a => isWord a || isSpace a) tail = false ->
  m false
    (Opt (Alt (Lit "public" >> Plus isSpace)
         (Alt (Lit "protected" >> Plus isSpace)
              (Lit "private" >> Plus isSpace))))
    (name ++ tail) c k
  = k (name ++ tail)%string c.
Proof.
  intros Hn Ht. apply m_Opt_skip. intros k'.
  change (match m false (Lit "public" >> Plus isSpace) (name ++ tail) c k' with
          | Some x => Some x
          | None =>
              match m false (Lit "protected" >> Plus isSpace)
                      (name ++ tail) c k' with
              | Some x => Some x
              | None => m false (Lit "private" >> Plus isSpace)
                          (name ++ tail) c k'
              end
          end = None).
  now rewrite !modifier_fails.
Qed.

Lemma typeExpr_head (T rest : string) :
  isTypeExpr T = true ->
  headIs isSpace (T ++ rest) = false /\ headIs notSemiNl T = true
  /\ allChars notSemiNl T = true.
Proof.
  unfold isTypeExpr. intros H. apply andb_true_iff in H as [H1 H2].
  destruct T as [|a T]; simpl in *; [discriminate|].
  apply andb_true_iff in H2 as [Ha H2]. rewrite Ha, H2.
  apply negb_true_iff in H1. auto.
Qed.

Lemma relationLine_matchAt (k : Kind) (target : string) (sep : ascii)
      (rest : string) :
  isIdentifier target = true ->
  isChar "," sep || isChar ")" sep = true ->
  matchAt relationRe (relationLine k target sep rest)
  = Some (rest, [(2, target); (1, kindName k)]).
Proof.
  unfold isIdentifier. intros I Hs. apply andb_true_iff in I as [I1 I2].
  assert (Hw : headIs isWord (String sep rest) = false).
  { simpl. destruct (isWord sep) eqn:W; [|reflexivity].
    revert Hs W. destruct sep as [[] [] [] [] [] [] [] []]; vm_compute;
      congruence. }
  assert (Hp : headIs isSpace (String sep rest) = false).
  { simpl. destruct (isSpace sep) eqn:W; [|reflexivity].
    revert Hs W. destruct sep as [[] [] [] [] [] [] [] []]; vm_compute;
      congruence. }
  unfold matchAt, relationLine, relationRe, pattern, ignoreCase, ws.
  rewrite m_Seq, (m_Lit_app "@").
  rewrite m_Seq, m_kind.
  rewrite m_Seq, m_Star_none by reflexivity.
  rewrite m_Seq.
  change ("(() => " ++ target ++ String sep rest)%string
    with ("(" ++ "() => " ++ target ++ String sep rest)%string.
  rewrite m_Lit_app.
  rewrite m_Seq, m_Star_none by reflexivity.
  rewrite m_Seq.
  change ("() => " ++ target ++ String sep rest)%string
    with ("()" ++ " => " ++ target ++ String sep rest)%string.
  rewrite m_Lit_app.
  rewrite m_Seq.
  apply (m_Star_greedy _ _ " " ("=> " ++ target ++ String sep rest));
    [reflexivity..|].
  rewrite m_Seq.
  change ("=> " ++ target ++ String sep rest)%string
    with ("=>" ++ " " ++ target ++ String sep rest)%string.
  rewrite m_Lit_app.
  rewrite m_Seq.
  apply (m_Star_greedy _ _ " " (target ++ String sep rest)); [reflexivity| |].
  { destruct target as [|a t]; simpl in *; [discriminate|].
    now apply word_not_space. }
  rewrite m_Seq. apply m_Grp_Plus_greedy; try assumption.
  rewrite m_Seq, m_Star_none by assumption.
  change (m false (Chr (fun c => isChar "," c || isChar ")" c))
            (String sep rest) (setCap 2 target (setCap 1 (kindName k) []))
            (fun s' c => Some (s', c)))
    with (if isChar "," sep || isChar ")" sep
          then Some (rest, [(2, target); (1, kindName k)]) else None).
  now rewrite Hs.
Qed.

Lemma declaration_matchAt (name : string) (opt : bool) (T rest : string) :
  isIdentifier name = true -> isTypeExpr T = true ->
  matchAt propRe (declaration name opt T ++ rest)
  = Some (rest, [(2, T); (1, name)]).
Proof.
  unfold isIdentifier. intros I HT. apply andb_true_iff in I as [I1 I2].
  destruct (typeExpr_head T (";" ++ rest) HT) as (T1 & T2 & T3).
  unfold matchAt, declaration, propRe, pattern, ignoreCase, ws.
  rewrite !app_assoc_s.
  rewrite m_Seq, m_modifiers_skip;
    [|assumption|destruct opt; reflexivity].
  rewrite m_Seq. apply m_Grp_Plus_greedy; try assumption.
  { destruct opt; reflexivity. }
  rewrite m_Seq.
  assert (E : ((if opt then "?" else "") ++ ": " ++ T ++ ";" ++ rest
              = if opt then String "?" (":" ++ " " ++ T ++ ";" ++ rest)
                else String ":" (" " ++ T ++ ";" ++ rest))%string)
    by (destruct opt; reflexivity).
  rewrite E. clear E.
  assert (G : m false (Lit ":" >> Star isSpace >> Grp 2 (Plus notSemiNl) >> Lit ";")
                (":" ++ " " ++ T ++ ";" ++ rest) (setCap 1 name [])
                (fun s' c => Some (s', c))
              = Some (rest, [(2, T); (1, name)])).
  { rewrite m_Seq, m_Lit_app.
    rewrite m_Seq. apply m_Star_greedy; [reflexivity|assumption|].
    rewrite m_Seq. apply m_Grp_Plus_greedy; try assumption; [reflexivity|].
    now rewrite m_Lit_app. }
  destruct opt; apply m_Opt_char; simpl Ascii.eqb; cbv iota; exact G.
Qed.

(** ** The optional marker *)

Lemma prefix_empty (s : string) : prefix "" s = true.
Proof. destruct s; reflexivity. Qed.

Lemma includes_char_app (q : ascii) (a b : string) :
  includes (String q "") (a ++ b)
  = includes (String q "") a || includes (String q "") b.
Proof.
  induction a as [|x a IH].
  - reflexivity.
  - change (includes (String q "") (String x a ++ b))
      with ((if ascii_dec q x then prefix "" (a ++ b) else false)
            || includes (String q "") (a ++ b)).
    change (includes (String q "") (String x a))
      with ((if ascii_dec q x then prefix "" a else false)
            || includes (String q "") a).
    rewrite IH, !prefix_empty. now rewrite orb_assoc.
Qed.

Lemma includes_char_none (p : ascii -> bool) (q : ascii) (s : string) :
  allChars p s = true -> p q = false -> includes (String q "") s = false.
Proof.
  intros Hs Hq. induction s as [|x s IH]; simpl in *; [reflexivity|].
  apply andb_true_iff in Hs as [Hx Hs]. rewrite (IH Hs).
  destruct (ascii_dec q x); [|reflexivity]. subst x. congruence.
Qed.

Lemma includes_declaration (name : string) (opt : bool) (T rest : string) :
  allChars isWord name = true ->
  includes "?" (declaration name opt T ++ rest)
  = opt || includes "?" T || includes "?" rest.
Proof.
  intros Hn. unfold declaration.
  rewrite !includes_char_app.
  rewrite (includes_char_none isWord "?" name Hn eq_refl).
  destruct opt; simpl; now rewrite ?orb_false_r.
Qed.

(** ** The chain of type tests, on examples *)

Lemma canonical_closed (t : string) :
  In (canonical t) ["string"; "number"; "boolean"; "Date"; "array"; "any"].
Proof.
  unfold canonical.
  destruct (test stringRe t); [simpl; auto|].
  destruct (test numberRe t); [simpl; auto|].
  destruct (test booleanRe t); [simpl; auto|].
  destruct (test dateRe t); [simpl; auto|].
  destruct (test bracketsRe t || test arrayOfRe t); simpl; auto 7.
Qed.

Example canonical_examples :
  map canonical
      ["string"; "VARCHAR(20)"; "number[]"; "bigint"; "Boolean"; "Date";
       "UpdatedAt"; "Client[]"; "Array<Client>"; "Client"]
  = ["string"; "string"; "number"; "number"; "boolean"; "Date";
     "Date"; "array"; "array"; "any"].
Proof. reflexivity. Qed.

Example three_lines_scenario :
  pipeline threeLines
  = Ok [ mkDto (mkField "id" "number" false false false)
               [ApiProperty] [IsNotEmpty; IsNumber; IsPositive];
         mkDto (mkField "name" "string" false false false)
               [ApiProperty] [IsNotEmpty; IsString];
         mkDto (mkField "created_at" "Date" false false false)
               [ApiProperty] [IsNotEmpty; IsDate] ].
Proof. reflexivity. Qed.

Example methods_and_comments_skipped :
  generate ("// a comment" ++ String nl "  getTotal() {"
            ++ String nl "    return 1" ++ String nl "  }")
  = Ok Skipped.
Proof. reflexivity. Qed.

(** bin/generate-dto.js has the same chain of tests but writes a date as
    a string, and marks every field optional. *)
Example Bin_mapType_examples :
  map (fun t => Bin.mapType t "x" false false)
      ["Date"; "string[]"; "Client[]"; "Array<Client>"; "Map<string, Date>"]
  = ["x: string;"; "x: string;"; "x: any[];"; "x: any[];"; "x: any;"].
Proof. reflexivity. Qed.

Lemma Bin_dtoLine_optional (p : Bin.Entry) :
  firstn 2 (Bin.dtoLine p) = ["  @ApiPropertyOptional()"; "  @IsOptional()"].
Proof. reflexivity. Qed.

(** * The claims *)

(** C1, as stated, fails: for the line [tags?: string[];] the pipeline
    does not produce a field of canonical type array carrying [IsArray]. *)
Lemma C1_counterexample :
  ~ exists d : DtoField,
      pipeline "tags?: string[];" = Ok [d]
      /\ name (prop d) = "tags" /\ type (prop d) = "array"
      /\ required d = false
      /\ validationRules d = [IsArray] /\ presenceRules d = [IsOptional].
Proof.
  intros (d & H & _ & Ht & _). vm_compute in H. inv H. discriminate Ht.
Qed.

(** C1, as amended: on the single line [tags?: string[];] the pipeline
    produces exactly one field, named "tags", of canonical type string
    and not an array, with required = false, validation rules exactly
    [IsString] and presence rule [IsOptional]: the declared type
    [string[]] already passes the string test, which comes before the
    test for a [[]] suffix. *)
Theorem C1_tags_line :
  let d := mkDto (mkField "tags" "string" false true false)
                 [ApiPropertyOptional] [IsOptional; IsString] in
  pipeline "tags?: string[];" = Ok [d]
  /\ required d = false
  /\ validationRules d = [IsString] /\ presenceRules d = [IsOptional]
  /\ test stringRe "string[]" = true /\ test bracketsRe "string[]" = true.
Proof. vm_compute. repeat split. Qed.

(** C2, as stated, fails: the two lines do not give a single field named
    "clienteId" with rules [IsNumber, NumericRelationCoercion]. *)
Lemma C2_counterexample :
  ~ exists d : DtoField,
      pipeline clienteLines = Ok [d]
      /\ name (prop d) = "clienteId" /\ type (prop d) = "number"
      /\ isArray (prop d) = false /\ required d = true
      /\ validationRules d = [IsNumber; TypeNumber].
Proof.
  intros (d & H & _). vm_compute in H. discriminate H.
Qed.

(** C2, as amended: on the two lines [@ManyToOne(() => Client, ...)] and
    [ cliente: Client;] the pipeline produces two fields, in this order:
    the relation field named "clientId" after the target [Client]
    (number, not an array, required) with validation rules
    [IsNumber, IsPositive, NumericRelationCoercion], the coercion last,
    and the field "cliente" of the property line (any, required, no
    validation rule). *)
Theorem C2_cliente_lines :
  let d1 := mkDto (mkField "clientId" "number" false false true)
                  [ApiProperty] [IsNotEmpty; IsNumber; IsPositive; TypeNumber] in
  let d2 := mkDto (mkField "cliente" "any" false false false)
                  [ApiProperty] [IsNotEmpty] in
  pipeline clienteLines = Ok [d1; d2]
  /\ required d1 = true
  /\ validationRules d1 = [IsNumber; IsPositive; TypeNumber]
  /\ required d2 = true /\ validationRules d2 = [].
Proof. vm_compute. repeat split. Qed.

(** What the extractor computes on every line that is not a relation and
    that the property pattern matches, whatever its shape: the entry is
    optional exactly when the trimmed line contains a [?] somewhere. *)
Lemma plain_line_optional
      (props : list RawField) (rawLine : string) (mr : MatchResult) :
  exec relationRe (trim rawLine) = None ->
  exec propRe (trim rawLine) = Some mr ->
  exists f : RawField,
    step props rawLine = Ok (props ++ [f])
    /\ isRelation f = false
    /\ Some (name f) = group 1 mr
    /\ isOptional f = includes "?" (trim rawLine)
    /\ required (dtoField f) = negb (includes "?" (trim rawLine)).
Proof.
  intros R P.
  destruct (property_captures _ _ P) as (n & raw & G1 & G2 & _).
  exists (plainEntry (trim rawLine) n raw).
  split; [now apply (step_plain props rawLine mr)|].
  repeat split. now rewrite G1.
Qed.

(** C3 holds of the marker the property pattern itself looks for, a [?]
    right before the [:] after the name, and the code misses it: the
    pattern does not capture that [?], and the entry is made optional by
    any [?] on the line. The line [id: number; // why?] is the
    declaration [id: number;] with no marker on the name, followed by a
    comment; it is extracted as optional, so that the field is not
    required and gets [IsOptional] in place of [IsNotEmpty] and loses
    [IsPositive], while the same declaration without the comment is
    required. A [?] inside the type does the same. *)
Theorem C3_question_mark_elsewhere :
  trim whyComment = (declaration "id" false "number" ++ " // why?")%string
  /\ exec propRe (trim whyComment)
     = Some (mkMatch "" "id: number;" " // why?"
                     [(2, "number"); (1, "id")])
  /\ pipeline whyComment
     = Ok [mkDto (mkField "id" "number" false true false)
                 [ApiPropertyOptional] [IsOptional; IsNumber]]
  /\ required (dtoField (mkField "id" "number" false true false)) = false
  /\ pipeline (declaration "id" false "number")
     = Ok [mkDto (mkField "id" "number" false false false)
                 [ApiProperty] [IsNotEmpty; IsNumber; IsPositive]]
  /\ pipeline (declaration "cb" false "(x?: number) => void")
     = Ok [mkDto (mkField "cb" "number" false true false)
                 [ApiPropertyOptional] [IsOptional; IsNumber]].
Proof. vm_compute. repeat split. Qed.

(** C4: a plain declaration whose declared type passes the test for
    [Date|datetime|timestamp] (ignoring case) after failing the tests
    for the string, number and boolean patterns gets the canonical type
    date, and [IsDate] is its type rule. *)
Theorem C4_date_type
        (props : list RawField) (rawLine : string) (mr : MatchResult)
        (raw : string) :
  exec relationRe (trim rawLine) = None ->
  exec propRe (trim rawLine) = Some mr ->
  group 2 mr = Some raw ->
  test stringRe (trim raw) = false ->
  test numberRe (trim raw) = false ->
  test booleanRe (trim raw) = false ->
  test dateRe (trim raw) = true ->
  exists f : RawField,
    step props rawLine = Ok (props ++ [f])
    /\ isRelation f = false /\ type f = "Date" /\ isArray f = false
    /\ typeValidators f = [IsDate]
    /\ validationRules (dtoField f) = [IsDate].
Proof.
  intros R P G2 Hs Hn Hb Hd.
  destruct (property_captures _ _ P) as (n & raw' & G1 & G2' & _).
  rewrite G2 in G2'. inv G2'.
  exists (plainEntry (trim rawLine) n raw').
  split; [now apply (step_plain props rawLine mr)|].
  unfold plainEntry, canonical. rewrite Hs, Hn, Hb, Hd.
  unfold validationRules, dtoField, typeValidators. simpl.
  destruct (includes "?" (trim rawLine)); repeat split.
Qed.

Lemma C4_date_type_witness :
  (exec relationRe (trim "  created_at: Date;") = None
   /\ exec propRe (trim "  created_at: Date;")
      = Some (mkMatch "" "created_at: Date;" ""
                      [(2, "Date"); (1, "created_at")])
   /\ group 2 (mkMatch "" "created_at: Date;" ""
                       [(2, "Date"); (1, "created_at")]) = Some "Date"
   /\ test stringRe (trim "Date") = false
   /\ test numberRe (trim "Date") = false
   /\ test booleanRe (trim "Date") = false
   /\ test dateRe (trim "Date") = true)
  /\ exists f : RawField,
      step [] "  created_at: Date;" = Ok ([] ++ [f])
      /\ isRelation f = false /\ type f = "Date" /\ isArray f = false
      /\ typeValidators f = [IsDate]
      /\ validationRules (dtoField f) = [IsDate].
Proof.
  split; [repeat split|].
  apply (C4_date_type [] "  created_at: Date;"
           (mkMatch "" "created_at: Date;" ""
                    [(2, "Date"); (1, "created_at")]) "Date");
    reflexivity.
Defined.

(** C5: a line of the shape [@Kind(() => X, ...)] gives exactly one
    entry, a relation, not optional (so required), named after [X] with
    its first character in lower case, followed by "Id" and not an array
    for ManyToOne and OneToOne, by "Ids" and an array for OneToMany and
    ManyToMany; [relationField] of bin/generate-dto.js gives the same
    name and array flag. *)
Theorem C5_relation_field
        (props : list RawField) (rawLine : string) (k : Kind)
        (X : string) (sep : ascii) (rest : string) :
  trim rawLine = relationLine k X sep rest ->
  isIdentifier X = true ->
  isChar "," sep || isChar ")" sep = true ->
  let n := (lowerFirst X
            ++ match k with
               | ManyToOne | OneToOne => "Id"
               | OneToMany | ManyToMany => "Ids"
               end)%string in
  let arr := match k with
             | ManyToOne | OneToOne => false
             | OneToMany | ManyToMany => true
             end in
  relationField (trim rawLine) = Ok (Some (mkField n "number" arr false true))
  /\ step props rawLine = Ok (props ++ [mkField n "number" arr false true])
  /\ required (dtoField (mkField n "number" arr false true)) = true
  /\ Bin.relationField (trim rawLine) = Ok (Some (Bin.mkRelation n arr)).
Proof.
  intros E I Hs n arr.
  pose proof (relationLine_matchAt k X sep rest I Hs) as M.
  apply exec_at_start in M. rewrite <- E in M.
  destruct (relationField_captured (trim rawLine) _ k X M eq_refl eq_refl)
    as [R B].
  assert (F : relationEntry k X = mkField n "number" arr false true)
    by (destruct k; reflexivity).
  assert (N : relationName k X = n) by (destruct k; reflexivity).
  assert (T : toMany k = arr) by (destruct k; reflexivity).
  rewrite F in R. rewrite N, T in B.
  repeat split; try assumption. now apply step_relation.
Qed.

Lemma C5_relation_field_witness :
  (trim "  @OneToMany(() => OrderItem, (i) => i.order)"
   = relationLine OneToMany "OrderItem" "," " (i) => i.order)"
   /\ isIdentifier "OrderItem" = true
   /\ isChar "," "," || isChar ")" "," = true)
  /\ relationField (trim "  @OneToMany(() => OrderItem, (i) => i.order)")
     = Ok (Some (mkField "orderItemIds" "number" true false true))
  /\ step [] "  @OneToMany(() => OrderItem, (i) => i.order)"
     = Ok ([] ++ [mkField "orderItemIds" "number" true false true])
  /\ required (dtoField (mkField "orderItemIds" "number" true false true))
     = true
  /\ Bin.relationField (trim "  @OneToMany(() => OrderItem, (i) => i.order)")
     = Ok (Some (Bin.mkRelation "orderItemIds" true)).
Proof.
  split; [repeat split|].
  apply (C5_relation_field [] "  @OneToMany(() => OrderItem, (i) => i.order)"
           OneToMany "OrderItem" "," " (i) => i.order)");
    reflexivity.
Defined.

(** C6: every field the mapper produces, whatever its type, carries
    exactly one presence rule: [IsOptional] when it is not required,
    [IsNotEmpty] when it is; the two never occur together. *)
Theorem C6_one_presence_rule (p : RawField) :
  presenceRules (dtoField p)
  = [if required (dtoField p) then IsNotEmpty else IsOptional]
  /\ (In IsOptional (validators (dtoField p))
      <-> required (dtoField p) = false)
  /\ (In IsNotEmpty (validators (dtoField p))
      <-> required (dtoField p) = true).
Proof.
  destruct p as [n t arr opt rel].
  unfold presenceRules, required, dtoField, typeValidators. simpl.
  destruct opt, rel, arr; simpl;
    destruct (String.eqb t "string");
    [| destruct (String.eqb t "number");
       [| destruct (String.eqb t "boolean");
          [| destruct (String.eqb t "Date");
             [| destruct (String.eqb t "array")]]]..];
    simpl; (split; [reflexivity|]); split; split;
    try reflexivity; try discriminate; intros H; auto;
    repeat (destruct H as [H|H]; try discriminate H); try contradiction.
Qed.

Lemma Bin_step_relation (props : list Bin.Entry) (rawLine : string)
      (rel : Bin.Relation) :
  Bin.relationField (trim rawLine) = Ok (Some rel) ->
  Bin.step props rawLine
  = Ok (props ++ [Bin.mkProp (Bin.relName rel) "" true (Bin.relIsArray rel)]).
Proof. intros E. unfold Bin.step. now rewrite E. Qed.

(** C7: the relation test comes first, and a line it matches adds its
    relation entry and nothing else, whether or not the property pattern
    would match the line too; the loop of bin/generate-dto.js does the
    same. *)
Theorem C7_relation_line_only
        (props : list RawField) (bprops : list Bin.Entry)
        (rawLine : string) (mr : MatchResult) :
  exec relationRe (trim rawLine) = Some mr ->
  exists (k : Kind) (X : string),
    relationField (trim rawLine) = Ok (Some (relationEntry k X))
    /\ step props rawLine = Ok (props ++ [relationEntry k X])
    /\ contribution rawLine = [relationEntry k X]
    /\ isRelation (relationEntry k X) = true
    /\ Bin.step bprops rawLine
       = Ok (bprops ++ [Bin.mkProp (relationName k X) "" true (toMany k)]).
Proof.
  intros E. destruct (relationField_matched _ _ E) as (k & X & _ & R & B).
  exists k, X. split; [assumption|].
  split; [now apply step_relation|].
  split; [unfold contribution; now rewrite (step_relation [] _ _ R)|].
  split; [reflexivity|].
  now rewrite (Bin_step_relation bprops _ _ B).
Qed.

Lemma C7_relation_line_only_witness :
  (exec relationRe (trim bothShapes)
   = Some (mkMatch "" "@ManyToOne(() => Client)" " cliente: Client;"
                   [(2, "Client"); (1, "ManyToOne")])
   /\ exec propRe (trim bothShapes)
      = Some (mkMatch "@ManyToOne(() => Client) " "cliente: Client;" ""
                      [(2, "Client"); (1, "cliente")]))
  /\ exists (k : Kind) (X : string),
      relationField (trim bothShapes) = Ok (Some (relationEntry k X))
      /\ step [] bothShapes = Ok ([] ++ [relationEntry k X])
      /\ contribution bothShapes = [relationEntry k X]
      /\ isRelation (relationEntry k X) = true
      /\ Bin.step [] bothShapes
         = Ok ([] ++ [Bin.mkProp (relationName k X) "" true (toMany k)]).
Proof.
  split; [split; reflexivity|].
  apply (C7_relation_line_only [] [] bothShapes
           (mkMatch "" "@ManyToOne(() => Client)" " cliente: Client;"
                    [(2, "Client"); (1, "ManyToOne")])).
  reflexivity.
Defined.

Lemma flat_map_nil_iff {A B} (f : A -> list B) (l : list A) :
  flat_map f l = [] <-> forall x, In x l -> f x = [].
Proof.
  induction l as [|a l IH]; simpl.
  - split; [intros _ x [] | reflexivity].
  - split.
    + intros H x [<-|Hx]; apply app_eq_nil in H as [H1 H2];
        [assumption | now apply IH].
    + intros H. rewrite (H a (or_introl eq_refl)).
      apply IH. intros x Hx. apply H. now right.
Qed.

Lemma contribution_nil_iff (rawLine : string) :
  contribution rawLine = [] <-> recognized (trim rawLine) = false.
Proof.
  destruct (step_total [] rawLine) as [_ L].
  destruct (recognized (trim rawLine)).
  - split; [|discriminate]. intros H. rewrite H in L. discriminate L.
  - split; [reflexivity|]. intros _.
    now destruct (contribution rawLine).
Qed.

(** C8: on every input text the extractor returns a sequence and raises
    no error; a line matching neither shape contributes nothing, the
    recognized lines contribute one entry each, and the sequence is empty
    exactly when no line is recognized, in which case the caller skips
    the entity (with a warning) instead of failing. *)
Theorem C8_extractor_total (entityContent : string) :
  exists props : list RawField,
    parseProps entityContent = Ok props
    /\ props = flat_map contribution (split entityContent)
    /\ (forall l : string,
           recognized (trim l) = false -> contribution l = [])
    /\ List.length props
       = List.length (filter (fun l => recognized (trim l))
                             (split entityContent))
    /\ (props = [] <->
        forall l : string,
          In l (split entityContent) -> recognized (trim l) = false)
    /\ (props = [] -> generate entityContent = Ok Skipped)
    /\ exists o : Outcome, generate entityContent = Ok o.
Proof.
  exists (flat_map contribution (split entityContent)).
  split; [apply parseProps_total|].
  split; [reflexivity|].
  split; [intros l; apply contribution_nil_iff|].
  split; [apply contribution_length|].
  split.
  { rewrite flat_map_nil_iff. split; intros H l Hl;
      apply contribution_nil_iff; auto. }
  unfold generate. rewrite parseProps_total. simpl. split.
  - intros ->. reflexivity.
  - destruct (List.length (flat_map contribution (split entityContent)) =? 0);
      eexists; reflexivity.
Qed.

(** C9: the output has one element per recognized line, in the order of
    the lines: the extractor appends what each line contributes, line
    after line and without removing repeated names, the mapper maps the
    entries one by one, and the fields of a text followed by a line feed
    and another text are those of the first followed by those of the
    second. *)
Theorem C9_source_order (entityContent more : string) :
  parseProps entityContent = Ok (flat_map contribution (split entityContent))
  /\ pipeline entityContent
     = Ok (map dtoField (flat_map contribution (split entityContent)))
  /\ map prop (map dtoField (flat_map contribution (split entityContent)))
     = flat_map contribution (split entityContent)
  /\ (forall l : string,
         List.length (contribution l)
         = if recognized (trim l) then 1 else 0)
  /\ flat_map contribution (split (entityContent ++ String nl more))
     = flat_map contribution (split entityContent)
       ++ flat_map contribution (split more)
  /\ pipeline (entityContent ++ String nl entityContent)
     = Ok (map dtoField (flat_map contribution (split entityContent)
                         ++ flat_map contribution (split entityContent))).
Proof.
  split; [apply parseProps_total|].
  split; [unfold pipeline; now rewrite parseProps_total|].
  split.
  { rewrite map_map. apply map_id. }
  split; [intros l; apply (step_total [] l)|].
  split; [now rewrite split_app, flat_map_app|].
  unfold pipeline. rewrite parseProps_total. simpl.
  now rewrite split_app, flat_map_app.
Qed.

(** C10: the comment line [// legacy: id: number;] is not a property
    declaration, and the extractor emits an entry for it all the same:
    the property pattern does not match at the start of the trimmed line
    but further on, taking "legacy" as the name and "id: number" as the
    declared type. *)
Theorem C10_comment_line_extracted :
  matchAt propRe (trim legacyComment) = None
  /\ exec propRe (trim legacyComment)
     = Some (mkMatch "// " "legacy: id: number;" ""
                     [(2, "id: number"); (1, "legacy")])
  /\ parseProps legacyComment
     = Ok [mkField "legacy" "number" false false false]
  /\ Bin.extract legacyComment
     = Ok [Bin.mkProp "legacy" "id: number" false false].
Proof. vm_compute. repeat split. Qed.

(** * Further properties of the two scripts *)

(** ** What a line must contain to be recognized *)

Lemma allChars_app (p : ascii -> bool) (u v : string) :
  allChars p (u ++ v) = allChars p u && allChars p v.
Proof.
  induction u as [|a u IH]; simpl; [reflexivity|].
  rewrite IH. now rewrite andb_assoc.
Qed.

Lemma includes_char_head (q : ascii) (s : string) :
  includes (String q "") (String q s) = true.
Proof.
  change (includes (String q "") (String q s))
    with ((if ascii_dec q q then prefix "" s else false)
          || includes (String q "") s).
  destruct (ascii_dec q q); [|congruence]. now rewrite prefix_empty.
Qed.

Lemma includes_char_cons (q a : ascii) (s : string) :
  includes (String q "") (String a s)
  = Ascii.eqb q a || includes (String q "") s.
Proof.
  change (includes (String q "") (String a s))
    with ((if ascii_dec q a then prefix "" s else false)
          || includes (String q "") s).
  rewrite prefix_empty. destruct (ascii_dec q a) as [->|N].
  - now rewrite Ascii.eqb_refl.
  - apply Ascii.eqb_neq in N. now rewrite N.
Qed.

Lemma includes_char_lit (q : ascii) (l s s' : string) :
  lit false (String q l) s = Some s' -> includes (String q "") s = true.
Proof.
  intros H. apply lit_exact in H. subst s. apply includes_char_head.
Qed.

Lemma trimStart_suffix (s : string) :
  exists a : string, s = (a ++ trimStart s)%string.
Proof.
  induction s as [|x s [a IH]]; simpl.
  - now exists ""%string.
  - destruct (isSpace x).
    + exists (String x a). simpl. now rewrite <- IH.
    + now exists ""%string.
Qed.

Lemma trimEnd_prefix (s : string) :
  exists b : string, s = (trimEnd s ++ b)%string.
Proof.
  induction s as [|x s [b IH]]; simpl.
  - now exists ""%string.
  - destruct (trimEnd s) as [|y t] eqn:E.
    + destruct (isSpace x).
      * exists (String x s). reflexivity.
      * exists b. simpl. simpl in IH. now rewrite <- IH.
    + exists b. simpl. simpl in IH. now rewrite <- IH.
Qed.

Lemma trim_inside (s : string) :
  exists a b : string, s = (a ++ trim s ++ b)%string.
Proof.
  destruct (trimStart_suffix s) as [a Ha].
  destruct (trimEnd_prefix (trimStart s)) as [b Hb].
  exists a, b. unfold trim. now rewrite <- Hb.
Qed.

Lemma includes_char_trim (q : ascii) (s : string) :
  includes (String q "") s = false ->
  includes (String q "") (trim s) = false.
Proof.
  destruct (trim_inside s) as (a & b & E). intros H.
  rewrite E in H. rewrite !includes_char_app in H.
  apply orb_false_iff in H as [_ H]. now apply orb_false_iff in H as [H _].
Qed.

Lemma relation_needs_at (s : string) (mr : MatchResult) :
  exec relationRe s = Some mr -> includes "@" s = true.
Proof.
  intros H. destruct (exec_sound _ _ _ H) as (s1 & M & E & _).
  simpl in M. inv M.
  match goal with H : matches _ (Lit _) _ _ _ _ |- _ => inv H end.
  rewrite includes_char_app.
  match goal with
  | H : lit false _ _ = Some _ |- _ =>
      rewrite (includes_char_lit _ _ _ _ H)
  end.
  apply orb_true_r.
Qed.

Lemma property_needs_semicolon (s : string) (mr : MatchResult) :
  exec propRe s = Some mr ->
  includes ":" s = true /\ includes ";" s = true.
Proof.
  intros H. destruct (exec_sound _ _ _ H) as (s1 & M & E & _).
  subst s. simpl in M. unfold ws in M. inv_matches;
    repeat match goal with
      | H : lit false _ _ = Some _ |- _ => apply lit_exact in H; subst
      end;
    repeat (rewrite includes_char_app || rewrite includes_char_cons);
    rewrite ?Ascii.eqb_refl; split; btauto.
Qed.

(** ** What a line contributes *)

Lemma contribution_cases (rawLine : string) :
  (recognized (trim rawLine) = false /\ contribution rawLine = [])
  \/ (exists (k : Kind) (X : string),
         isIdentifier X = true
         /\ contribution rawLine = [relationEntry k X])
  \/ (exists (n raw : string),
         exec relationRe (trim rawLine) = None
         /\ isIdentifier n = true
         /\ contribution rawLine = [plainEntry (trim rawLine) n raw]).
Proof.
  unfold contribution, recognized, test.
  destruct (exec relationRe (trim rawLine)) as [mr|] eqn:E1.
  - right. left.
    destruct (relationField_matched _ _ E1) as (k & X & I & R & _).
    exists k, X. now rewrite (step_relation [] _ _ R).
  - destruct (exec propRe (trim rawLine)) as [mr|] eqn:E2.
    + right. right.
      destruct (property_captures _ _ E2) as (n & raw & G1 & G2 & I & _).
      exists n, raw. now rewrite (step_plain [] _ _ _ _ E1 E2 G1 G2).
    + left. now rewrite (step_skip [] _ E1 E2).
Qed.

Lemma lowerChar_word (a : ascii) : isWord a = true -> isWord (lowerChar a) = true.
Proof.
  destruct a as [[] [] [] [] [] [] [] []]; vm_compute; congruence.
Qed.

Lemma relationName_identifier (k : Kind) (X : string) :
  isIdentifier X = true -> isIdentifier (relationName k X) = true.
Proof.
  unfold isIdentifier, relationName. intros H.
  apply andb_true_iff in H as [H1 H2].
  destruct X as [|a X]; simpl in *; [discriminate|].
  apply andb_true_iff in H2 as [_ H2].
  rewrite (lowerChar_word a H1), allChars_app, H2.
  now destruct (toMany k).
Qed.

(** X1: every entry the extractor returns, on any text, has a name that
    is a non-empty run of letters, digits and underscores. *)
Theorem X1_names_are_identifiers (entityContent : string) :
  exists props : list RawField,
    parseProps entityContent = Ok props
    /\ forall f : RawField, In f props -> isIdentifier (name f) = true.
Proof.
  exists (flat_map contribution (split entityContent)).
  split; [apply parseProps_total|].
  intros f Hf. apply in_flat_map in Hf as (l & _ & Hf).
  destruct (contribution_cases l)
    as [[_ E]|[(k & X & I & E)|(n & raw & _ & I & E)]];
    rewrite E in Hf; simpl in Hf;
    [contradiction | destruct Hf as [<-|[]] ..].
  - now apply relationName_identifier.
  - exact I.
Qed.

(** X2: every entry the extractor returns is of one of two kinds. A
    relation entry has type number and is not optional, and its name ends
    in "Ids" when it is an array and in "Id" when it is not. A plain entry
    has one of the six type names and is an array exactly when its type
    is "array". *)
Theorem X2_entry_invariant (entityContent : string) :
  exists props : list RawField,
    parseProps entityContent = Ok props
    /\ forall f : RawField, In f props ->
         In (type f) ["string"; "number"; "boolean"; "Date"; "array"; "any"]
         /\ (isRelation f = true ->
             type f = "number" /\ isOptional f = false
             /\ exists stem : string,
                 name f = (stem ++ if isArray f then "Ids" else "Id")%string)
         /\ (isRelation f = false ->
             isArray f = String.eqb (type f) "array").
Proof.
  exists (flat_map contribution (split entityContent)).
  split; [apply parseProps_total|].
  intros f Hf. apply in_flat_map in Hf as (l & _ & Hf).
  destruct (contribution_cases l)
    as [[_ E]|[(k & X & I & E)|(n & raw & _ & I & E)]];
    rewrite E in Hf; simpl in Hf;
    [contradiction | destruct Hf as [<-|[]]; simpl ..].
  - split; [auto|]. split; [|discriminate].
    intros _. repeat split. now exists (lowerFirst X).
  - split; [apply canonical_closed|]. split; [discriminate|reflexivity].
Qed.

(** X3: a line without [@] is never taken for a relation, and a line with
    neither [@] nor [;] (a blank line, a brace, a method signature, a
    decorator other than a relation) adds nothing to the entries. *)
Theorem X3_unrecognized_lines (rawLine : string) :
  includes "@" rawLine = false ->
  relationField (trim rawLine) = Ok None
  /\ (includes ";" rawLine = false -> contribution rawLine = []).
Proof.
  intros HA. apply includes_char_trim in HA.
  assert (R : exec relationRe (trim rawLine) = None).
  { destruct (exec relationRe (trim rawLine)) as [mr|] eqn:E; [|reflexivity].
    apply relation_needs_at in E. congruence. }
  split; [now apply relationField_unmatched|].
  intros HS. apply includes_char_trim in HS.
  assert (P : exec propRe (trim rawLine) = None).
  { destruct (exec propRe (trim rawLine)) as [mr|] eqn:E; [|reflexivity].
    apply property_needs_semicolon in E as [_ E]. congruence. }
  unfold contribution. now rewrite (step_skip [] _ R P).
Qed.

Lemma X3_unrecognized_lines_witness :
  includes "@" "  getTotal(): number {" = false
  /\ relationField (trim "  getTotal(): number {") = Ok None
  /\ (includes ";" "  getTotal(): number {" = false ->
      contribution "  getTotal(): number {" = []).
Proof.
  split; [reflexivity|].
  apply (X3_unrecognized_lines "  getTotal(): number {"). reflexivity.
Defined.

(** ** A visibility keyword before the name *)

Lemma m_Alt_left {A} (ic : bool) (r1 r2 : regex) (s : string) (c : caps)
      (k : string -> caps -> option A) (x : A) :
  m ic r1 s c k = Some x -> m ic (Alt r1 r2) s c k = Some x.
Proof. intros H. simpl. now rewrite H. Qed.

Lemma m_Alt_right {A} (ic : bool) (r1 r2 : regex) (s : string) (c : caps)
      (k : string -> caps -> option A) (x : A) :
  m ic r1 s c k = None -> m ic r2 s c k = Some x ->
  m ic (Alt r1 r2) s c k = Some x.
Proof. intros H1 H2. simpl. now rewrite H1. Qed.

Lemma m_Lit_fail {A} (ic : bool) (l : string) (r : regex) (s : string)
      (c : caps) (k : string -> caps -> option A) :
  lit ic l s = None -> m ic (Lit l >> r) s c k = None.
Proof. intros H. simpl. now rewrite H. Qed.

Lemma m_Opt_take {A} (ic : bool) (r : regex) (s : string) (c : caps)
      (k : string -> caps -> option A) (x : A) :
  m ic r s c (fun s' c' =>
                if String.length s' =? String.length s then None
                else k s' c') = Some x ->
  m ic (Opt r) s c k = Some x.
Proof. intros H. simpl. now rewrite H. Qed.

Lemma m_keyword {A} (l w rest : string) (c : caps)
      (k : string -> caps -> option A) (x : A) :
  headIs isSpace w = true -> allChars isSpace w = true ->
  headIs isSpace rest = false ->
  k rest c = Some x ->
  m false (Lit l >> Plus isSpace) (l ++ w ++ rest) c k = Some x.
Proof.
  intros H1 H2 H3 H4. rewrite m_Seq, m_Lit_app.
  now apply m_Plus_greedy.
Qed.

Lemma visibility_matchAt (v : Visibility) (w name : string) (opt : bool)
      (T rest : string) :
  headIs isSpace w = true -> allChars isSpace w = true ->
  isIdentifier name = true -> isTypeExpr T = true ->
  matchAt propRe
    (visibilityName v ++ w ++ declaration name opt T ++ rest)
  = Some (rest, [(2, T); (1, name)]).
Proof.
  intros W1 W2 I HT.
  pose proof (declaration_matchAt name opt T rest I HT) as D.
  unfold isIdentifier in I. apply andb_true_iff in I as [I1 I2].
  assert (HD : headIs isSpace (declaration name opt T ++ rest) = false).
  { unfold declaration. destruct name as [|a n]; simpl in *; [discriminate|].
    now apply word_not_space. }
  unfold matchAt, propRe, pattern, ignoreCase in *.
  rewrite m_Seq in D. unfold declaration in D at 1.
  rewrite app_assoc_s in D.
  rewrite m_modifiers_skip in D;
    [|assumption|destruct opt; reflexivity].
  rewrite <- app_assoc_s in D. fold (declaration name opt T) in D.
  rewrite m_Seq. apply m_Opt_take.
  assert (L : forall l : string,
             (String.length (declaration name opt T ++ rest)
              =? String.length (l ++ w ++ declaration name opt T ++ rest))
             = false).
  { intros l. apply Nat.eqb_neq. rewrite !strlen_app.
    destruct w; simpl in *; [discriminate|]. lia. }
  destruct v; simpl visibilityName.
  - apply m_Alt_left. apply m_keyword; try assumption.
    cbv beta. now rewrite L.
  - apply m_Alt_right; [now apply m_Lit_fail|].
    apply m_Alt_left. apply m_keyword; try assumption.
    cbv beta. now rewrite L.
  - apply m_Alt_right; [now apply m_Lit_fail|].
    apply m_Alt_right; [now apply m_Lit_fail|].
    apply m_keyword; try assumption.
    cbv beta. now rewrite L.
Qed.

(** X4: a declaration that follows [public], [protected] or [private] and
    blanks is extracted under its own name: the keyword is dropped and
    the type is classified as without it. *)
Theorem X4_visibility_dropped
        (props : list RawField) (rawLine : string) (v : Visibility)
        (w name : string) (opt : bool) (T rest : string) :
  trim rawLine
  = (visibilityName v ++ w ++ declaration name opt T ++ rest)%string ->
  headIs isSpace w = true -> allChars isSpace w = true ->
  isIdentifier name = true -> isTypeExpr T = true ->
  exec relationRe (trim rawLine) = None ->
  exists f : RawField,
    step props rawLine = Ok (props ++ [f])
    /\ Generator.name f = name
    /\ type f = canonical (trim T)
    /\ isRelation f = false.
Proof.
  intros E W1 W2 I HT R.
  pose proof (visibility_matchAt v w name opt T rest W1 W2 I HT) as M.
  apply exec_at_start in M. rewrite <- E in M.
  exists (plainEntry (trim rawLine) name T).
  split; [now apply (step_plain props rawLine _ name T R M)|].
  repeat split.
Qed.

Lemma X4_visibility_dropped_witness :
  (trim "  private  total: number;"
   = (visibilityName Private ++ "  " ++ declaration "total" false "number"
      ++ "")%string
   /\ exec relationRe (trim "  private  total: number;") = None)
  /\ exists f : RawField,
      step [] "  private  total: number;" = Ok ([] ++ [f])
      /\ Generator.name f = "total"
      /\ type f = canonical (trim "number")
      /\ isRelation f = false.
Proof.
  split; [split; reflexivity|].
  apply (X4_visibility_dropped [] "  private  total: number;" Private
           "  " "total" false "number" ""); reflexivity.
Defined.

(** ** A word found in a text is found in any text around it *)

Lemma lit_extend (ic : bool) (l s s' post : string) :
  lit ic l s = Some s' -> lit ic l (s ++ post) = Some (s' ++ post)%string.
Proof.
  revert s. induction l as [|a l IH]; intros s H; simpl in *.
  - now inv H.
  - destruct s as [|b s]; [discriminate|]. simpl.
    destruct (chEq ic a b); [now apply IH | discriminate].
Qed.

Lemma words_extend {A} (ic : bool) (r : regex) (post : string) :
  isWords r = true ->
  forall (s : string) (c : caps) (k k' : string -> caps -> option A),
    (forall s' c', k s' c' <> None -> k' (s' ++ post)%string c' <> None) ->
    m ic r s c k <> None -> m ic r (s ++ post) c k' <> None.
Proof.
  induction r as [p|l|r1 IH1 r2 IH2|r1 IH1 r2 IH2|r IH|p|p|i r IH|];
    intros W s c k k' K H; simpl in W; try discriminate.
  - simpl in *. destruct (lit ic l s) as [s'|] eqn:E; [|congruence].
    rewrite (lit_extend _ _ _ _ post E). now apply K.
  - apply andb_true_iff in W as [W1 W2]. simpl in *.
    destruct (m ic r1 s c k) eqn:E1.
    + assert (N : m ic r1 (s ++ post) c k' <> None)
        by (apply (IH1 W1 s c k k' K); congruence).
      destruct (m ic r1 (s ++ post) c k'); congruence.
    + destruct (m ic r1 (s ++ post) c k'); [congruence|].
      now apply (IH2 W2 s c k k' K).
Qed.

Lemma matchAt_extend (re : RegExp) (s post : string) :
  isWords (pattern re) = true ->
  matchAt re s <> None -> matchAt re (s ++ post) <> None.
Proof.
  intros W. unfold matchAt. apply words_extend; [assumption|].
  intros s' c' _. discriminate.
Qed.

Lemma execFrom_found (re : RegExp) (s : string) :
  forall pre : string,
    execFrom re pre s <> None ->
    exists a b : string, s = (a ++ b)%string /\ matchAt re b <> None.
Proof.
  induction s as [|x s IH]; intros pre H; simpl in H.
  - exists ""%string, ""%string. split; [reflexivity|].
    destruct (matchAt re ""); congruence.
  - destruct (matchAt re (String x s)) as [[s' c]|] eqn:E.
    + exists ""%string, (String x s). split; [reflexivity | congruence].
    + destruct (IH _ H) as (a & b & -> & N).
      now exists (String x a), b.
Qed.

Lemma execFrom_finds (re : RegExp) (a b : string) :
  matchAt re b <> None ->
  forall pre : string, execFrom re pre (a ++ b) <> None.
Proof.
  intros N. induction a as [|x a IH]; intros pre.
  - simpl append. destruct b; simpl;
      destruct (matchAt re _) as [[s' c]|]; congruence.
  - simpl. destruct (matchAt re (String x (a ++ b))) as [[s' c]|];
      [discriminate | apply IH].
Qed.

Lemma test_inside (re : RegExp) (pre t post : string) :
  isWords (pattern re) = true ->
  test re t = true -> test re (pre ++ t ++ post) = true.
Proof.
  intros W H. unfold test, exec in *.
  destruct (execFrom re "" t) as [mr|] eqn:E; [|discriminate].
  destruct (execFrom_found re t "") as (a & b & -> & N); [congruence|].
  assert (F : execFrom re "" ((pre ++ a) ++ (b ++ post)) <> None)
    by (apply execFrom_finds; now apply matchAt_extend).
  rewrite !app_assoc_s in *.
  destruct (execFrom re "" (pre ++ a ++ b ++ post)); congruence.
Qed.

(** X5: a declared type in which the string test finds one of its words
    is classified string whatever stands before and after it, so that
    [T[]] and [Array<T>] of such a [T] are strings, not arrays. *)
Theorem X5_string_wins (pre t post : string) :
  test stringRe t = true ->
  canonical (pre ++ t ++ post) = "string"
  /\ canonical (t ++ "[]") = "string"
  /\ canonical ("Array<" ++ t ++ ">") = "string".
Proof.
  intros H. unfold canonical.
  rewrite (test_inside stringRe pre t post eq_refl H).
  pose proof (test_inside stringRe "" t "[]" eq_refl H) as H2.
  change ("" ++ t ++ "[]")%string with (t ++ "[]")%string in H2.
  rewrite H2.
  rewrite (test_inside stringRe "Array<" t ">" eq_refl H).
  auto.
Qed.

Lemma X5_string_wins_witness :
  test stringRe "varchar" = true
  /\ canonical ("Map<" ++ "varchar" ++ ", Date>") = "string"
  /\ canonical ("varchar" ++ "[]") = "string"
  /\ canonical ("Array<" ++ "varchar" ++ ">") = "string".
Proof.
  split; [reflexivity|].
  apply (X5_string_wins "Map<" "varchar" ", Date>"). reflexivity.
Defined.

(** X6: a declared type is classified array only if nothing inside it is
    classified string, number, boolean or Date: when a text around [t]
    is an array, [t] alone is an array or any. *)
Theorem X6_array_of_unknown_only (pre t post : string) :
  canonical (pre ++ t ++ post) = "array" ->
  canonical t = "array" \/ canonical t = "any".
Proof.
  unfold canonical. intros H.
  destruct (test stringRe t) eqn:E1;
    [rewrite (test_inside stringRe pre t post eq_refl E1) in H;
     discriminate|].
  destruct (test stringRe (pre ++ t ++ post)); [discriminate|].
  destruct (test numberRe t) eqn:E2;
    [rewrite (test_inside numberRe pre t post eq_refl E2) in H;
     discriminate|].
  destruct (test numberRe (pre ++ t ++ post)); [discriminate|].
  destruct (test booleanRe t) eqn:E3;
    [rewrite (test_inside booleanRe pre t post eq_refl E3) in H;
     discriminate|].
  destruct (test booleanRe (pre ++ t ++ post)); [discriminate|].
  destruct (test dateRe t) eqn:E4;
    [rewrite (test_inside dateRe pre t post eq_refl E4) in H;
     discriminate|].
  destruct (test bracketsRe t || test arrayOfRe t); auto.
Qed.

Lemma X6_array_of_unknown_only_witness :
  canonical ("Array<" ++ "Client" ++ ">") = "array"
  /\ (canonical "Client" = "array" \/ canonical "Client" = "any").
Proof.
  split; [reflexivity|].
  apply (X6_array_of_unknown_only "Array<" "Client" ">"). reflexivity.
Defined.

(** ** The validators of a field *)

(** X7: [IsPositive] is attached exactly to the number fields that are
    neither optional nor arrays, and then [IsNumber] is attached too;
    [@Type(() => Number)] is attached exactly to the relation fields, as
    the last validator; and a field never carries two type rules. *)
Theorem X7_validators (p : RawField) :
  (In IsPositive (validators (dtoField p))
   <-> type p = "number" /\ isOptional p = false /\ isArray p = false)
  /\ (In IsPositive (validators (dtoField p))
      -> In IsNumber (validators (dtoField p)))
  /\ (In TypeNumber (validators (dtoField p)) <-> isRelation p = true)
  /\ (isRelation p = true ->
      exists vs, validators (dtoField p) = vs ++ [TypeNumber])
  /\ List.length (filter isTypeRule (validators (dtoField p))) <= 1.
Proof.
  destruct p as [n t arr opt rel].
  unfold dtoField, typeValidators. simpl.
  destruct (String.eqb_spec t "string") as [->|N1];
    [|destruct (String.eqb_spec t "number") as [->|N2];
      [|destruct (String.eqb_spec t "boolean") as [->|N3];
        [|destruct (String.eqb_spec t "Date") as [->|N4];
          [|destruct (String.eqb_spec t "array") as [->|N5]]]]];
    destruct opt, arr, rel; simpl;
    (split; [split; [intros H; repeat (destruct H as [H|H]; try discriminate H);
                     try contradiction; auto
                    |intros (H1 & H2 & H3);
                     try discriminate; try congruence; auto 6]|]);
    (split; [intros H; repeat (destruct H as [H|H]; try discriminate H);
             try contradiction; auto 6|]);
    (split; [split; [intros H; repeat (destruct H as [H|H]; try discriminate H);
                     try contradiction; auto
                    |intros H; try discriminate; auto 6]|]);
    (split; [intros H; try discriminate;
             match goal with
             | |- exists vs, ?l = vs ++ [TypeNumber] =>
                 exists (removelast l); reflexivity
             end|]);
    auto.
Qed.

(** ** Relation fields, from the line to the written property *)

(** X8: a relation line is written as a required number property with
    [IsNotEmpty], [IsNumber] and [@Type(() => Number)]: [XId: number;]
    with [IsPositive] as well for ManyToOne and OneToOne, and
    [XIds: number[];] for OneToMany and ManyToMany, which gets [IsNumber]
    and neither [IsPositive] nor [IsArray]. *)
Theorem X8_relation_property
        (rawLine : string) (k : Kind) (X : string) (sep : ascii)
        (rest : string) :
  trim rawLine = relationLine k X sep rest ->
  isIdentifier X = true ->
  isChar "," sep || isChar ")" sep = true ->
  exists f : RawField,
    contribution rawLine = [f]
    /\ decorators (dtoField f) = [ApiProperty]
    /\ validators (dtoField f)
       = (if toMany k then [IsNotEmpty; IsNumber; TypeNumber]
          else [IsNotEmpty; IsNumber; IsPositive; TypeNumber])
    /\ declarationLine f
       = ("  " ++ lowerFirst X
          ++ (if toMany k then "Ids: number[];" else "Id: number;"))%string.
Proof.
  intros E I Hs.
  pose proof (relationLine_matchAt k X sep rest I Hs) as M.
  apply exec_at_start in M. rewrite <- E in M.
  destruct (relationField_captured (trim rawLine) _ k X M eq_refl eq_refl)
    as [R _].
  exists (relationEntry k X).
  split; [unfold contribution; now rewrite (step_relation [] _ _ R)|].
  unfold declarationLine, relationEntry, relationName. simpl.
  rewrite !app_assoc_s. destruct k; repeat split.
Qed.

Lemma X8_relation_property_witness :
  (trim "@ManyToMany(() => Tag)" = relationLine ManyToMany "Tag" ")" ""
   /\ isIdentifier "Tag" = true
   /\ isChar "," ")" || isChar ")" ")" = true)
  /\ exists f : RawField,
      contribution "@ManyToMany(() => Tag)" = [f]
      /\ decorators (dtoField f) = [ApiProperty]
      /\ validators (dtoField f)
         = (if toMany ManyToMany then [IsNotEmpty; IsNumber; TypeNumber]
            else [IsNotEmpty; IsNumber; IsPositive; TypeNumber])
      /\ declarationLine f
         = ("  " ++ lowerFirst "Tag"
            ++ (if toMany ManyToMany then "Ids: number[];"
                else "Id: number;"))%string.
Proof.
  split; [repeat split|].
  apply (X8_relation_property "@ManyToMany(() => Tag)" ManyToMany "Tag"
           ")" ""); reflexivity.
Defined.

(** ** What is written for a field, read again *)

Lemma renderField_declaration (d : DtoField) :
  exists head : string,
    renderField d = (head ++ declarationLine (prop d) ++ lf ++ lf)%string.
Proof.
  exists (String.concat ""
            (map (fun x => renderDecorator (name (prop d)) x ++ lf)
                 (decorators d))
          ++ String.concat ""
               (map (fun x => renderValidator (name (prop d)) x ++ lf)
                    (validators d)))%string.
  unfold renderField, declarationLine. now rewrite !app_assoc_s.
Qed.

Lemma trimEnd_keep (u : string) (a : ascii) :
  isSpace a = false ->
  trimEnd (u ++ String a "") = (u ++ String a "")%string.
Proof.
  intros Ha. induction u as [|x u IH]; simpl.
  - now rewrite Ha.
  - rewrite IH. destruct (u ++ String a "")%string eqn:E; [|reflexivity].
    destruct u; discriminate.
Qed.

Lemma trim_indented (s : string) (a : ascii) :
  headIs isSpace (s ++ String a "") = false -> isSpace a = false ->
  trim ("  " ++ s ++ String a "") = (s ++ String a "")%string.
Proof.
  intros Hs Ha. unfold trim.
  change (trimStart ("  " ++ s ++ String a ""))
    with (trimStart (s ++ String a "")).
  replace (trimStart (s ++ String a "")) with (s ++ String a "")%string.
  - now apply trimEnd_keep.
  - destruct (s ++ String a "")%string; simpl in *; [reflexivity|].
    now rewrite Hs.
Qed.

(** The type names the generator writes, with the array flag they come
    with. *)
Lemma written_type_read_back (ty : string) (arr : bool) :
  In (ty, arr)
     [("string", false); ("number", false); ("number", true);
      ("boolean", false); ("Date", false); ("array", true);
      ("any", false)] ->
  let T := (ty ++ if arr then "[]" else "")%string in
  isTypeExpr T = true /\ canonical (trim T) = ty
  /\ includes "@" T = false /\ includes "?" T = false.
Proof.
  intros H. simpl in H.
  repeat (destruct H as [H|H]; [inv H; vm_compute; auto|]).
  contradiction.
Qed.

Lemma declaration_read_back (n ty : string) (arr opt rel : bool) :
  isIdentifier n = true ->
  In (ty, arr)
     [("string", false); ("number", false); ("number", true);
      ("boolean", false); ("Date", false); ("array", true);
      ("any", false)] ->
  step [] (declarationLine (mkField n ty arr opt rel))
  = Ok [mkField n ty (String.eqb ty "array") false false].
Proof.
  intros I H.
  destruct (written_type_read_back ty arr H) as (HT & HC & HA & HQ).
  set (T := (ty ++ if arr then "[]" else "")%string) in *.
  assert (Iw : allChars isWord n = true)
    by (unfold isIdentifier in I; now apply andb_true_iff in I as [_ I]).
  assert (E : trim (declarationLine (mkField n ty arr opt rel))
              = (declaration n false T ++ "")%string).
  { unfold declarationLine, declaration.
    cbn [Generator.name type isArray]. fold T.
    replace ("  " ++ n ++ ": " ++ ty ++ (if arr then "[]" else "") ++ ";")%string
      with ("  " ++ (n ++ ": " ++ T) ++ ";")%string
      by (unfold T; now rewrite !app_assoc_s).
    rewrite trim_indented; [now rewrite !app_assoc_s| |reflexivity].
    unfold isIdentifier in I. apply andb_true_iff in I as [I _].
    destruct n as [|a n]; simpl in *; [discriminate|].
    now apply word_not_space. }
  assert (R : exec relationRe
                (trim (declarationLine (mkField n ty arr opt rel))) = None).
  { destruct (exec relationRe _) as [mr|] eqn:X; [|reflexivity].
    apply relation_needs_at in X. rewrite E in X.
    unfold declaration in X.
    repeat (rewrite includes_char_app in X).
    rewrite (includes_char_none isWord "@" n Iw eq_refl), HA in X.
    discriminate X. }
  pose proof (declaration_matchAt n false T "" I HT) as M.
  apply exec_at_start in M. rewrite <- E in M.
  rewrite (step_plain [] _ _ n T R M); [|reflexivity..].
  unfold plainEntry. rewrite HC, E.
  rewrite (includes_declaration n false T "" Iw), HQ. reflexivity.
Qed.

(** X9: the property line written for any extracted field is itself a
    line the extractor recognizes, and reading it gives one plain entry
    with the same name and the same type, never optional. *)
Theorem X9_written_line_read_back
        (entityContent : string) (f : RawField) :
  In f (flat_map contribution (split entityContent)) ->
  parseProps entityContent = Ok (flat_map contribution (split entityContent))
  /\ contribution (declarationLine f)
     = [mkField (name f) (type f) (String.eqb (type f) "array") false false].
Proof.
  intros Hf. split; [apply parseProps_total|].
  apply in_flat_map in Hf as (l & _ & Hf).
  unfold contribution at 1.
  destruct (contribution_cases l)
    as [[_ E]|[(k & X & I & E)|(n & raw & _ & I & E)]];
    rewrite E in Hf; simpl in Hf;
    [contradiction | destruct Hf as [<-|[]] ..].
  - unfold relationEntry.
    rewrite declaration_read_back; [reflexivity| |].
    + now apply relationName_identifier.
    + destruct k; simpl; auto.
  - unfold plainEntry.
    rewrite declaration_read_back; [reflexivity|assumption|].
    pose proof (canonical_closed (trim raw)) as C. simpl in C.
    repeat (destruct C as [C|C]; [rewrite <- C; simpl; auto 8|]).
    contradiction.
Qed.

Lemma X9_written_line_read_back_witness :
  In (mkField "tags" "array" true true false)
     (flat_map contribution (split "tags?: Tag[];"))
  /\ parseProps "tags?: Tag[];"
     = Ok (flat_map contribution (split "tags?: Tag[];"))
  /\ contribution (declarationLine (mkField "tags" "array" true true false))
     = [mkField "tags" "array" (String.eqb "array" "array") false false].
Proof.
  split; [left; reflexivity|].
  apply (X9_written_line_read_back "tags?: Tag[];"
           (mkField "tags" "array" true true false)).
  left. reflexivity.
Defined.

(** X10: an entity is skipped exactly when none of its lines is
    recognized; otherwise its fields are written, one per recognized
    line and in line order, the text being the blocks of the fields one
    after the other. *)
Theorem X10_generate (entityContent : string) :
  let fields := map dtoField (flat_map contribution (split entityContent)) in
  (generate entityContent = Ok Skipped
   <-> forall l : string,
         In l (split entityContent) -> recognized (trim l) = false)
  /\ (generate entityContent <> Ok Skipped ->
      generate entityContent
      = Ok (Written fields (String.concat "" (map renderField fields)))
      /\ List.length fields
         = List.length (filter (fun l => recognized (trim l))
                               (split entityContent))
      /\ 0 < List.length fields).
Proof.
  intros fields. unfold generate. rewrite parseProps_total. simpl.
  assert (N : flat_map contribution (split entityContent) = []
              <-> forall l : string,
                    In l (split entityContent) -> recognized (trim l) = false).
  { rewrite flat_map_nil_iff. split; intros H l Hl;
      apply contribution_nil_iff; auto. }
  unfold fields.
  pose proof (contribution_length (split entityContent)) as L.
  destruct (flat_map contribution (split entityContent)) as [|f fs] eqn:E.
  - simpl. split; [split; [intros _; now apply N | reflexivity]|].
    intros H. now contradiction H.
  - simpl Nat.eqb. cbv iota. split.
    + split; [discriminate|]. intros H. apply N in H. discriminate H.
    + intros _. split; [reflexivity|].
      rewrite length_map. split; [exact L | simpl; lia].
Qed.

(** ** The module name in kebab case *)

Lemma matchAt_camel (s : string) :
  matchAt camelRe s
  = match s with
    | String a (String b r) =>
        if inRange "a" "z" a && inRange "A" "Z" b
        then Some (r, [(2, String b ""); (1, String a "")])
        else None
    | _ => None
    end.
Proof.
  destruct s as [|a [|b r]]; unfold matchAt; cbn -[consumed];
    try reflexivity.
  - now destruct (inRange "a" "z" a).
  - destruct (inRange "a" "z" a); [|reflexivity].
    destruct (inRange "A" "Z" b); [|reflexivity]. cbn -[consumed].
    change (consumed (String b r) r)
      with (consumed (String b "" ++ r) r).
    change (consumed (String a (String b r)) (String b r))
      with (consumed (String a "" ++ String b r) (String b r)).
    now rewrite !consumed_app.
Qed.

Lemma replaceAllFuel_camel (fuel : nat) :
  forall s : string,
    String.length s < fuel ->
    replaceAllFuel camelRe (fun c => dollar 1 c ++ "-" ++ dollar 2 c)%string
                   fuel s
    = hyphenate s.
Proof.
  induction fuel as [|fuel IH]; intros s L; [lia|].
  cbn [replaceAllFuel]. rewrite matchAt_camel.
  destruct s as [|a [|b r]]; simpl in *.
  - reflexivity.
  - rewrite IH by (simpl; lia). reflexivity.
  - destruct (inRange "a" "z" a && inRange "A" "Z" b).
    + replace (String.length r <? S (S (String.length r))) with true
        by (symmetry; apply Nat.ltb_lt; lia).
      rewrite IH by lia. reflexivity.
    + rewrite IH by (simpl; lia). reflexivity.
Qed.

Lemma kebabName_hyphenate (rawName : string) :
  kebabName rawName = toLowerCase (hyphenate rawName).
Proof.
  unfold kebabName, replaceAll. now rewrite replaceAllFuel_camel by lia.
Qed.

Lemma string_pairs_ind (P : string -> Prop) :
  P "" -> (forall a, P (String a "")) ->
  (forall a b r, P r -> P (String b r) -> P (String a (String b r))) ->
  forall s, P s.
Proof.
  intros H0 H1 H2 s.
  assert (H : P s /\ forall a, P (String a s)).
  { induction s as [|b r [IH1 IH2]]; [now split|].
    split; [apply IH2|]. intros a. apply H2; [assumption | apply IH2]. }
  apply H.
Qed.

Lemma lowerChar_small (c : ascii) : inRange "A" "Z" (lowerChar c) = false.
Proof. destruct c as [[] [] [] [] [] [] [] []]; reflexivity. Qed.

Lemma lowerChar_idem (c : ascii) : lowerChar (lowerChar c) = lowerChar c.
Proof. destruct c as [[] [] [] [] [] [] [] []]; reflexivity. Qed.

Lemma lowerChar_hyphen (c : ascii) :
  isChar "-" (lowerChar c) = isChar "-" c.
Proof. destruct c as [[] [] [] [] [] [] [] []]; reflexivity. Qed.

Lemma toLowerCase_small (s : string) :
  allChars (fun c => negb (inRange "A" "Z" c)) (toLowerCase s) = true.
Proof.
  induction s as [|a s IH]; simpl; [reflexivity|].
  now rewrite lowerChar_small, IH.
Qed.

Lemma toLowerCase_idem (s : string) :
  toLowerCase (toLowerCase s) = toLowerCase s.
Proof.
  induction s as [|a s IH]; simpl; [reflexivity|].
  now rewrite lowerChar_idem, IH.
Qed.

Lemma hyphenate_small (s : string) :
  allChars (fun c => negb (inRange "A" "Z" c)) s = true -> hyphenate s = s.
Proof.
  induction s as [|a t IH]; intros H; [reflexivity|].
  simpl in H. apply andb_true_iff in H as [_ H].
  destruct t as [|b r]; [reflexivity|].
  cbn [hyphenate]. change (hyphenate (String b r))
    with (match r with
          | String b' r' =>
              if inRange "a" "z" b && inRange "A" "Z" b'
              then String b (String "-" (String b' (hyphenate r')))
              else String b (hyphenate r)
          | EmptyString => String b ""
          end) in IH.
  pose proof H as H'. simpl in H'. apply andb_true_iff in H' as [Hb _].
  apply negb_true_iff in Hb. rewrite Hb, andb_false_r.
  f_equal. now apply IH.
Qed.

(** X11: the module name in kebab case has no ASCII capital left, and
    putting it in kebab case again changes nothing. *)
Theorem X11_kebabName_idempotent (rawName : string) :
  allChars (fun c => negb (inRange "A" "Z" c)) (kebabName rawName) = true
  /\ kebabName (kebabName rawName) = kebabName rawName.
Proof.
  rewrite kebabName_hyphenate. split; [apply toLowerCase_small|].
  rewrite kebabName_hyphenate.
  rewrite (hyphenate_small _ (toLowerCase_small _)).
  apply toLowerCase_idem.
Qed.

Lemma dropChars_hyphenate (s : string) :
  dropChars (isChar "-") (hyphenate s) = dropChars (isChar "-") s.
Proof.
  induction s as [|a|a b r IH1 IH2] using string_pairs_ind;
    try reflexivity.
  change (hyphenate (String a (String b r)))
    with (if inRange "a" "z" a && inRange "A" "Z" b
          then String a (String "-" (String b (hyphenate r)))
          else String a (hyphenate (String b r))).
  destruct (inRange "a" "z" a && inRange "A" "Z" b) eqn:E.
  - cbn [dropChars]. rewrite IH1. reflexivity.
  - change (dropChars (isChar "-") (String a (hyphenate (String b r))))
      with (if isChar "-" a
            then dropChars (isChar "-") (hyphenate (String b r))
            else String a (dropChars (isChar "-") (hyphenate (String b r)))).
    now rewrite IH2.
Qed.

Lemma dropChars_toLowerCase (s : string) :
  dropChars (isChar "-") (toLowerCase s)
  = toLowerCase (dropChars (isChar "-") s).
Proof.
  induction s as [|a s IH]; [reflexivity|].
  cbn [dropChars toLowerCase]. rewrite lowerChar_hyphen.
  destruct (isChar "-" a); cbn [toLowerCase]; now rewrite IH.
Qed.

(** X12: putting an ASCII name in kebab case only adds hyphens and
    lowers letters: with the hyphens taken out, the result is the name in
    lower case with its own hyphens taken out. *)
Theorem X12_kebabName_letters (rawName : string) :
  allChars isAscii rawName = true ->
  dropChars (isChar "-") (kebabName rawName)
  = toLowerCase (dropChars (isChar "-") rawName).
Proof.
  intros _. rewrite kebabName_hyphenate, dropChars_toLowerCase.
  now rewrite dropChars_hyphenate.
Qed.

Lemma X12_kebabName_letters_witness :
  allChars isAscii "orderLine-itemV2" = true
  /\ dropChars (isChar "-") (kebabName "orderLine-itemV2")
     = toLowerCase (dropChars (isChar "-") "orderLine-itemV2").
Proof.
  split; [reflexivity|].
  apply (X12_kebabName_letters "orderLine-itemV2"). reflexivity.
Defined.

Example kebabName_examples :
  map kebabName ["reserva"; "userProfile"; "aBcD"; "aBC"; "HTTPServer"; "user-profile"; "myURLParser"]
  = ["reserva"; "user-profile"; "a-bc-d"; "a-bc"; "httpserver"; "user-profile"; "my-urlparser"].
Proof. vm_compute. reflexivity. Qed.

Example toPascalCase_examples :
  map toPascalCase ["booking"; "order-item"; "order_item"; ""; "-x"; "a--b"; "Order-Item"]
  = ["Booking"; "OrderItem"; "OrderItem"; ""; "X"; "AB"; "OrderItem"].
Proof. vm_compute. reflexivity. Qed.

(** ** Class names *)

Lemma concat_empty_cons (x : string) (l : list string) :
  String.concat "" (x :: l) = (x ++ String.concat "" l)%string.
Proof.
  destruct l; simpl; [|reflexivity].
  induction x as [|a x IH]; simpl; [reflexivity | now rewrite <- IH].
Qed.

Lemma concat_empty_app (l1 l2 : list string) :
  String.concat "" (l1 ++ l2)
  = (String.concat "" l1 ++ String.concat "" l2)%string.
Proof.
  induction l1 as [|x l1 IH]; [reflexivity|].
  change ((x :: l1) ++ l2) with (x :: (l1 ++ l2)).
  now rewrite !concat_empty_cons, IH, app_assoc_s.
Qed.

Lemma splitSeparators_app (a : string) (c : ascii) (b : string) :
  isSeparator c = true ->
  (let (h, t) := splitSeparators (a ++ String c b) in h :: t)
  = (let (h, t) := splitSeparators a in h :: t)
    ++ (let (h, t) := splitSeparators b in h :: t).
Proof.
  intros Hc. induction a as [|x a IH]; simpl.
  - rewrite Hc. now destruct (splitSeparators b).
  - destruct (splitSeparators (a ++ String c b)) as [h t].
    destruct (splitSeparators a) as [ha ta].
    destruct (splitSeparators b) as [hb tb].
    destruct (isSeparator x); simpl in *.
    + now rewrite IH.
    + inv IH. reflexivity.
Qed.

Lemma toPascalCase_pieces (s : string) :
  toPascalCase s
  = String.concat ""
      (map capitalize (let (h, t) := splitSeparators s in h :: t)).
Proof. unfold toPascalCase. now destruct (splitSeparators s). Qed.

Lemma splitSeparators_whole (s : string) :
  allChars (fun c => negb (isSeparator c)) s = true ->
  splitSeparators s = (s, []).
Proof.
  induction s as [|a s IH]; simpl; intros H; [reflexivity|].
  apply andb_true_iff in H as [Ha H]. apply negb_true_iff in Ha.
  now rewrite (IH H), Ha.
Qed.

Lemma splitSeparators_pieces (s : string) :
  Forall (fun p => allChars (fun c => negb (isSeparator c)) p = true)
         (let (h, t) := splitSeparators s in h :: t).
Proof.
  induction s as [|a s IH]; simpl.
  - repeat constructor.
  - destruct (splitSeparators s) as [h t].
    destruct (isSeparator a) eqn:E.
    + constructor; [reflexivity | assumption].
    + inv IH. constructor; [|assumption]. simpl. now rewrite E.
Qed.

Lemma upperChar_separator (c : ascii) :
  isSeparator (upperChar c) = isSeparator c.
Proof. destruct c as [[] [] [] [] [] [] [] []]; reflexivity. Qed.

Lemma capitalize_separators (p : string) :
  allChars (fun c => negb (isSeparator c)) (capitalize p)
  = allChars (fun c => negb (isSeparator c)) p.
Proof.
  destruct p as [|a p]; [reflexivity|].
  unfold capitalize. simpl. now rewrite upperChar_separator.
Qed.

Lemma toPascalCase_separators (s : string) :
  allChars (fun c => negb (isSeparator c)) (toPascalCase s) = true.
Proof.
  rewrite toPascalCase_pieces.
  pose proof (splitSeparators_pieces s) as F.
  induction F as [|p l Hp F IH]; [reflexivity|].
  cbn [map]. rewrite concat_empty_cons, allChars_app.
  now rewrite capitalize_separators, Hp, IH.
Qed.

(** X13: for ASCII names, the class name of two names joined by [-] or
    [_] is the class name of the first followed by the class name of the
    second. *)
Theorem X13_toPascalCase_joins (a : string) (c : ascii) (b : string) :
  allChars isAscii a = true -> allChars isAscii b = true ->
  isSeparator c = true ->
  toPascalCase (a ++ String c b)
  = (toPascalCase a ++ toPascalCase b)%string.
Proof.
  intros _ _ Hc. rewrite !toPascalCase_pieces.
  rewrite (splitSeparators_app a c b Hc), map_app.
  apply concat_empty_app.
Qed.

Lemma X13_toPascalCase_joins_witness :
  (allChars isAscii "order" = true /\ allChars isAscii "line-item" = true
   /\ isSeparator "_" = true)
  /\ toPascalCase ("order" ++ String "_" "line-item")
     = (toPascalCase "order" ++ toPascalCase "line-item")%string.
Proof.
  split; [repeat split|].
  apply (X13_toPascalCase_joins "order" "_" "line-item"); reflexivity.
Defined.

(** X14: for an ASCII base name, the class name made by [toPascalCase]
    has no [-] and no [_] left, also as the class name inside the names
    of the two DTOs. *)
Theorem X14_toPascalCase_no_separator (entityBaseName : string) :
  allChars isAscii entityBaseName = true ->
  allChars (fun c => negb (isSeparator c)) (toPascalCase entityBaseName)
  = true
  /\ allChars (fun c => negb (isSeparator c))
              (GeneratorNames.createDtoName entityBaseName) = true
  /\ allChars (fun c => negb (isSeparator c))
              (GeneratorNames.updateDtoName entityBaseName) = true.
Proof.
  intros _.
  unfold GeneratorNames.createDtoName, GeneratorNames.updateDtoName,
    GeneratorNames.className.
  rewrite !allChars_app, toPascalCase_separators. repeat split.
Qed.

Lemma X14_toPascalCase_no_separator_witness :
  allChars isAscii "order_line-item" = true
  /\ allChars (fun c => negb (isSeparator c))
              (toPascalCase "order_line-item") = true
  /\ allChars (fun c => negb (isSeparator c))
              (GeneratorNames.createDtoName "order_line-item") = true
  /\ allChars (fun c => negb (isSeparator c))
              (GeneratorNames.updateDtoName "order_line-item") = true.
Proof.
  split; [reflexivity|].
  apply (X14_toPascalCase_no_separator "order_line-item"). reflexivity.
Defined.

(** X15: for an ASCII base name, the two scripts give the entity the
    same class name exactly when the base name has no [-] and no [_]:
    [toPascalCase] then only raises the first letter, as
    bin/generate-dto.js always does, keeping the separators. *)
Theorem X15_class_names_agree (entityBaseName : string) :
  allChars isAscii entityBaseName = true ->
  (GeneratorNames.className entityBaseName
   = BinNames.className entityBaseName
   <-> allChars (fun c => negb (isSeparator c)) entityBaseName = true).
Proof.
  intros _.
  unfold GeneratorNames.className, BinNames.className. split.
  - intros E. rewrite <- capitalize_separators, <- E.
    apply toPascalCase_separators.
  - intros H. unfold toPascalCase.
    rewrite (splitSeparators_whole _ H). simpl.
    reflexivity.
Qed.

Lemma X15_class_names_agree_witness :
  allChars isAscii "order-item" = true
  /\ (GeneratorNames.className "order-item" = BinNames.className "order-item"
      <-> allChars (fun c => negb (isSeparator c)) "order-item" = true)
  /\ GeneratorNames.className "order-item" = "OrderItem"
  /\ BinNames.className "order-item" = "Order-item".
Proof.
  split; [reflexivity|].
  split; [|split; reflexivity].
  apply (X15_class_names_agree "order-item"). reflexivity.
Defined.

(** ** The file the update DTO imports *)

Lemma toLowerCase_app (a b : string) :
  toLowerCase (a ++ b) = (toLowerCase a ++ toLowerCase b)%string.
Proof. induction a as [|x a IH]; simpl; [reflexivity | now rewrite IH]. Qed.

Lemma lower_upper (c : ascii) : lowerChar (upperChar c) = lowerChar c.
Proof. destruct c as [[] [] [] [] [] [] [] []]; reflexivity. Qed.

Lemma toLowerCase_capitalize (s : string) :
  toLowerCase (capitalize s) = toLowerCase s.
Proof.
  destruct s as [|a s]; [reflexivity|].
  unfold capitalize. simpl. now rewrite lower_upper.
Qed.

Lemma shifted_by_hyphen (L X Y : string) :
  (L ++ String "d" X)%string <> String "-" (L ++ Y).
Proof.
  revert X Y. induction L as [|c L IH]; intros X Y H; simpl in H.
  - discriminate H.
  - inv H. now apply (IH X Y).
Qed.

Lemma head_not_hyphen (C X Y : string) :
  allChars (fun c => negb (isSeparator c)) C = true ->
  (toLowerCase C ++ String "d" X)%string <> String "-" Y.
Proof.
  intros H E. destruct C as [|c C]; simpl in *; [discriminate E|].
  apply andb_true_iff in H as [H _]. inv E.
  assert (N : isChar "-" (lowerChar c) = true)
    by (now match goal with H : lowerChar c = _ |- _ => rewrite H end).
  rewrite lowerChar_hyphen in N. unfold isChar in N.
  apply Ascii.eqb_eq in N. subst c. discriminate H.
Qed.

(** X16: the update DTO imports the create DTO from [./Create<Class>Dto],
    while the create DTO is written to [create-<base>.dto.ts]: whatever
    the base name (of ASCII characters) and whatever extension is put
    after the imported name, it is not the name of that file, even when
    the case of letters is ignored. This holds for both scripts. *)
Theorem X16_import_is_not_the_file (entityBaseName ext : string) :
  allChars isAscii entityBaseName = true ->
  (exists pre post : string,
      GeneratorNames.updateDtoFull entityBaseName
      = (pre ++ " from './" ++ GeneratorNames.createDtoName entityBaseName
         ++ "';" ++ post)%string)
  /\ toLowerCase (GeneratorNames.createDtoName entityBaseName ++ ext)
     <> toLowerCase (GeneratorNames.createDtoFile entityBaseName)
  /\ (exists pre post : string,
         BinNames.updateDtoContent entityBaseName
         = (pre ++ " from './" ++ BinNames.createDtoName entityBaseName
            ++ "';" ++ post)%string)
  /\ toLowerCase (BinNames.createDtoName entityBaseName ++ ext)
     <> toLowerCase (BinNames.createDtoFile entityBaseName).
Proof.
  intros _. split; [|split; [|split]].
  - exists ("import { PartialType } from '@nestjs/mapped-types';" ++ lf
            ++ "import { " ++ GeneratorNames.createDtoName entityBaseName
            ++ " }")%string.
    eexists. unfold GeneratorNames.updateDtoFull.
    rewrite !app_assoc_s. reflexivity.
  - unfold GeneratorNames.createDtoName, GeneratorNames.createDtoFile,
      GeneratorNames.className.
    rewrite !toLowerCase_app, !app_assoc_s. simpl. intros E. inv E.
    match goal with
    | H : _ = _ |- _ =>
        now apply head_not_hyphen in H; [|apply toPascalCase_separators]
    end.
  - exists ("import { PartialType } from '@nestjs/mapped-types';" ++ lf
            ++ "import { " ++ BinNames.createDtoName entityBaseName
            ++ " }")%string.
    eexists. unfold BinNames.updateDtoContent.
    rewrite !app_assoc_s. reflexivity.
  - unfold BinNames.createDtoName, BinNames.createDtoFile,
      BinNames.className.
    rewrite !toLowerCase_app, toLowerCase_capitalize, !app_assoc_s.
    simpl. intros E. inv E.
    match goal with
    | H : _ = _ |- _ => now apply shifted_by_hyphen in H
    end.
Qed.

Lemma X16_import_is_not_the_file_witness :
  allChars isAscii "order-item" = true
  /\ toLowerCase (GeneratorNames.createDtoName "order-item" ++ ".ts")
     <> toLowerCase (GeneratorNames.createDtoFile "order-item")
  /\ toLowerCase (BinNames.createDtoName "order-item" ++ ".ts")
     <> toLowerCase (BinNames.createDtoFile "order-item").
Proof.
  split; [reflexivity|].
  destruct (X16_import_is_not_the_file "order-item" ".ts" eq_refl)
    as (_ & G & _ & B).
  split; assumption.
Defined.

(** ** The two scripts on the same text *)

Lemma Bin_step_plain (props : list Bin.Entry) (rawLine : string)
      (mr : MatchResult) (n raw : string) :
  exec relationRe (trim rawLine) = None ->
  exec propRe (trim rawLine) = Some mr ->
  group 1 mr = Some n -> group 2 mr = Some raw ->
  Bin.step props rawLine = Ok (props ++ [Bin.mkProp n (trim raw) false false]).
Proof.
  intros E1 E2 G1 G2. unfold Bin.step.
  destruct (relationField_unmatched _ E1) as [_ ->]. simpl.
  now rewrite E2, G1, G2.
Qed.

Lemma Bin_step_skip (props : list Bin.Entry) (rawLine : string) :
  exec relationRe (trim rawLine) = None ->
  exec propRe (trim rawLine) = None ->
  Bin.step props rawLine = Ok props.
Proof.
  intros E1 E2. unfold Bin.step.
  destruct (relationField_unmatched _ E1) as [_ ->]. simpl.
  now rewrite E2.
Qed.

Lemma Bin_step_total (props : list Bin.Entry) (rawLine : string) :
  Bin.step props rawLine = Ok (props ++ binContribution rawLine)
  /\ Forall2 sameField (contribution rawLine) (binContribution rawLine).
Proof.
  unfold contribution, binContribution.
  destruct (exec relationRe (trim rawLine)) as [mr|] eqn:E1.
  - destruct (relationField_matched _ _ E1) as (k & X & _ & R & B).
    rewrite (Bin_step_relation props _ _ B), (Bin_step_relation [] _ _ B).
    rewrite (step_relation [] _ _ R). split; [reflexivity|].
    repeat constructor.
  - destruct (exec propRe (trim rawLine)) as [mr|] eqn:E2.
    + destruct (property_captures _ _ E2) as (n & raw & G1 & G2 & _).
      rewrite (Bin_step_plain props _ _ _ _ E1 E2 G1 G2).
      rewrite (Bin_step_plain [] _ _ _ _ E1 E2 G1 G2).
      rewrite (step_plain [] _ _ _ _ E1 E2 G1 G2). split; [reflexivity|].
      repeat constructor.
    + rewrite (Bin_step_skip props _ E1 E2), (Bin_step_skip [] _ E1 E2).
      rewrite (step_skip [] _ E1 E2). rewrite app_nil_r. split; constructor.
Qed.

Lemma Bin_loop_total (lines : list string) :
  forall props : list Bin.Entry,
    Bin.loop lines props = Ok (props ++ flat_map binContribution lines).
Proof.
  induction lines as [|l rest IH]; intros props; simpl.
  - now rewrite app_nil_r.
  - destruct (Bin_step_total props l) as [-> _]. simpl.
    rewrite IH. now rewrite <- app_assoc.
Qed.

Lemma Forall2_flat_map {A B C} (R : B -> C -> Prop) (f : A -> list B)
      (g : A -> list C) (l : list A) :
  (forall x, Forall2 R (f x) (g x)) ->
  Forall2 R (flat_map f l) (flat_map g l).
Proof.
  intros H. induction l as [|x l IH]; simpl; [constructor|].
  apply Forall2_app; [apply H | apply IH].
Qed.

(** X17: on every text the two scripts extract the same fields in the
    same order: as many entries, with the same names and the same
    relation flags; a relation has the same array flag in both, and for a
    property the type name of the generator is the classification of the
    raw type bin/generate-dto.js keeps, whose array flag is always off. *)
Theorem X17_scripts_extract_alike (entityContent : string) :
  exists (props : list RawField) (bprops : list Bin.Entry),
    parseProps entityContent = Ok props
    /\ Bin.extract entityContent = Ok bprops
    /\ Forall2 sameField props bprops
    /\ map name props = map Bin.name bprops.
Proof.
  exists (flat_map contribution (split entityContent)),
         (flat_map binContribution (split entityContent)).
  split; [apply parseProps_total|].
  split; [unfold Bin.extract; now rewrite Bin_loop_total|].
  assert (F : Forall2 sameField
                (flat_map contribution (split entityContent))
                (flat_map binContribution (split entityContent))).
  { apply Forall2_flat_map. intros l. apply (Bin_step_total [] l). }
  split; [assumption|].
  induction F as [|f b fs bs [N _] _ IH]; simpl; [reflexivity|].
  now rewrite N, IH.
Qed.

(** ** The type written by bin/generate-dto.js *)

Lemma trimEnd_idem (s : string) : trimEnd (trimEnd s) = trimEnd s.
Proof.
  induction s as [|a s IH]; [reflexivity|].
  cbn [trimEnd]. destruct (trimEnd s) as [|b t] eqn:E.
  - destruct (isSpace a) eqn:Sa; [reflexivity|].
    simpl. now rewrite Sa.
  - cbn [trimEnd]. cbn [trimEnd] in IH. now rewrite IH.
Qed.

Lemma trimStart_head (s : string) :
  headIs isSpace (trimStart s) = false.
Proof.
  induction s as [|a s IH]; [reflexivity|].
  simpl. destruct (isSpace a) eqn:E; [assumption|]. simpl. exact E.
Qed.

Lemma trimEnd_head (s : string) :
  headIs isSpace s = false -> headIs isSpace (trimEnd s) = false.
Proof.
  destruct s as [|a s]; [reflexivity|]. simpl. intros H.
  destruct (trimEnd s); [rewrite H|]; simpl; auto.
Qed.

Lemma trimStart_keep (s : string) :
  headIs isSpace s = false -> trimStart s = s.
Proof. destruct s as [|a s]; simpl; [reflexivity|]. now intros ->. Qed.

Lemma trim_idem (s : string) : trim (trim s) = trim s.
Proof.
  unfold trim.
  rewrite (trimStart_keep (trimEnd (trimStart s))).
  - apply trimEnd_idem.
  - apply trimEnd_head, trimStart_head.
Qed.

(** X18: for a property whose raw type has no [<...>] part,
    bin/generate-dto.js writes the TypeScript type that goes with the
    type name the generator gives the same raw type: the name itself for
    string, number, boolean and any, [string] for Date and [any[]] for
    array. *)
Theorem X18_mapType_agrees (raw propName : string) :
  exec genericRe (trim raw) = None ->
  Bin.mapType (trim raw) propName false false
  = (propName ++ ": " ++ writtenType (canonical (trim raw)) ++ ";")%string.
Proof.
  intros G. unfold Bin.mapType, replace, canonical. rewrite G, trim_idem.
  destruct (test stringRe (trim raw)); [reflexivity|].
  destruct (test numberRe (trim raw)); [reflexivity|].
  destruct (test booleanRe (trim raw)); [reflexivity|].
  destruct (test dateRe (trim raw)); [reflexivity|].
  destruct (test bracketsRe (trim raw) || test arrayOfRe (trim raw));
    reflexivity.
Qed.

Lemma X18_mapType_agrees_witness :
  exec genericRe (trim " Date ") = None
  /\ Bin.mapType (trim " Date ") "created_at" false false
     = ("created_at" ++ ": " ++ writtenType (canonical (trim " Date "))
        ++ ";")%string.
Proof.
  split; [reflexivity|].
  apply (X18_mapType_agrees " Date " "created_at"). reflexivity.
Defined.

(** With a [<...>] part the two can differ: the generator finds [string]
    inside the angle brackets, bin/generate-dto.js removes them first. *)
Example generic_part_differs :
  canonical "Map<string, Date>" = "string"
  /\ Bin.mapType "Map<string, Date>" "x" false false = "x: any;".
Proof. split; reflexivity. Qed.

(** ** Blanks around a line *)

Lemma trimStart_blank (w : string) :
  allChars isSpace w = true -> trimStart w = ""%string.
Proof.
  induction w as [|a w IH]; simpl; intros H; [reflexivity|].
  apply andb_true_iff in H as [Ha H]. rewrite Ha. now apply IH.
Qed.

Lemma trimEnd_blank (w : string) :
  allChars isSpace w = true -> trimEnd w = ""%string.
Proof.
  induction w as [|a w IH]; simpl; intros H; [reflexivity|].
  apply andb_true_iff in H as [Ha H]. now rewrite (IH H), Ha.
Qed.

Lemma trimStart_after_blank (w s : string) :
  allChars isSpace w = true -> trimStart (w ++ s) = trimStart s.
Proof.
  induction w as [|a w IH]; simpl; intros H; [reflexivity|].
  apply andb_true_iff in H as [Ha H]. rewrite Ha. now apply IH.
Qed.

Lemma trimEnd_before_blank (s w : string) :
  allChars isSpace w = true -> trimEnd (s ++ w) = trimEnd s.
Proof.
  intros H. induction s as [|a s IH]; simpl.
  - now apply trimEnd_blank.
  - now rewrite IH.
Qed.

Lemma trim_before_blank (s w : string) :
  allChars isSpace w = true -> trim (s ++ w) = trim s.
Proof.
  intros H. unfold trim. induction s as [|a s IH]; simpl.
  - now rewrite (trimStart_blank w H).
  - destruct (isSpace a); [assumption|].
    apply (trimEnd_before_blank (String a s) w H).
Qed.

(** X20: blanks before and after a line (indentation, trailing spaces,
    the carriage return of a CRLF file) do not change what the line adds
    to the entries, in either script. *)
Theorem X20_blanks_ignored (w1 line w2 : string) :
  allChars isSpace w1 = true -> allChars isSpace w2 = true ->
  contribution (w1 ++ line ++ w2) = contribution line
  /\ binContribution (w1 ++ line ++ w2) = binContribution line.
Proof.
  intros H1 H2.
  assert (E : trim (w1 ++ line ++ w2) = trim line).
  { unfold trim. rewrite (trimStart_after_blank w1 _ H1).
    apply (trim_before_blank line w2 H2). }
  unfold contribution, binContribution, step, Bin.step.
  cbv zeta. now rewrite E.
Qed.

Lemma X20_blanks_ignored_witness :
  (allChars isSpace "    " = true
   /\ allChars isSpace (String (ascii_of_nat 13) "") = true)
  /\ contribution ("    " ++ "name?: string;" ++ String (ascii_of_nat 13) "")
     = contribution "name?: string;"
  /\ binContribution ("    " ++ "name?: string;"
                      ++ String (ascii_of_nat 13) "")
     = binContribution "name?: string;".
Proof.
  split; [split; reflexivity|].
  apply (X20_blanks_ignored "    " "name?: string;"
           (String (ascii_of_nat 13) "")); reflexivity.
Defined.

(** ** Imports of the create DTO *)

(** X19: every decorator and validator line the generator can write for
    a field starts with [@] and a name that is in the list imported at
    the top of the create DTO, and that list has no name twice. *)
Theorem X19_written_names_imported
        (n : string) (d : Decorator) (v : Validator)
        (entityBaseName dtoContent : string) :
  (exists rest : string,
      renderDecorator n d = ("  @" ++ decoratorName d ++ "(" ++ rest)%string)
  /\ In (decoratorName d) validatorImports
  /\ (exists rest : string,
         renderValidator n v
         = ("  @" ++ validatorName v ++ "(" ++ rest)%string)
  /\ In (validatorName v) validatorImports
  /\ NoDup validatorImports
  /\ exists pre post : string,
      createDtoFull entityBaseName dtoContent
      = (pre ++ "import { " ++ String.concat ", " validatorImports
         ++ " } from 'class-validator';" ++ post)%string.
Proof.
  split; [destruct d; eexists; reflexivity|].
  split; [destruct d; vm_compute; tauto|].
  split; [destruct v; eexists; reflexivity|].
  split; [destruct v; vm_compute; tauto|].
  split.
  { vm_compute. repeat constructor; simpl; intuition discriminate. }
  exists ("import { ApiProperty, ApiPropertyOptional } from '@nestjs/swagger';"
          ++ lf ++ "import { Type } from 'class-transformer';" ++ lf)%string.
  eexists. unfold createDtoFull. rewrite !app_assoc_s. reflexivity.
Qed.

(** ** The part between angle brackets in bin/generate-dto.js *)

(** A greedy run that has to give back its last character. *)
Lemma starC_give_back {A} (p : ascii -> bool) (u : string) (a : ascii)
      (k : string -> option A) (x : A) :
  allChars p (u ++ String a "") = true ->
  k ""%string = None -> k (String a "") = Some x ->
  starC p (u ++ String a "") k = Some x.
Proof.
  intros H K0 K1. induction u as [|b u IH]; simpl in *.
  - apply andb_true_iff in H as [Pa _]. now rewrite Pa, K0.
  - apply andb_true_iff in H as [Pb H]. now rewrite Pb, (IH H).
Qed.

Lemma execFrom_step (re : RegExp) (pre : string) (a : ascii) (s : string) :
  matchAt re (String a s) = None ->
  execFrom re pre (String a s) = execFrom re (pre ++ String a "") s.
Proof. intros H. simpl. now rewrite H. Qed.

Lemma execFrom_here (re : RegExp) (pre s s' : string) (c : caps) :
  matchAt re s = Some (s', c) ->
  execFrom re pre s = Some (mkMatch pre (consumed s s') s' c).
Proof. intros H. destruct s; simpl; now rewrite H. Qed.

Lemma generic_part_removed (T : string) :
  allChars isDot T = true ->
  replace genericRe "" ("Array<" ++ T ++ ">") = "Array"%string.
Proof.
  intros H. unfold replace.
  assert (M : matchAt genericRe ("<" ++ T ++ ">") = Some (""%string, [])).
  { unfold matchAt, genericRe, pattern, ignoreCase.
    rewrite m_Seq, m_Lit_app, m_Seq.
    change (starC isDot (T ++ ">")
              (fun s' => m false (Lit ">") s' [] (fun s'' c => Some (s'', c)))
            = Some (""%string, [])).
    apply starC_give_back; [|reflexivity..].
    rewrite allChars_app, H. reflexivity. }
  assert (E : exec genericRe ("Array<" ++ T ++ ">")
              = Some (mkMatch "Array" (consumed ("<" ++ T ++ ">") "") "" [])).
  { unfold exec.
    change ("Array<" ++ T ++ ">")%string
      with (String "A" (String "r" (String "r" (String "a"
             (String "y" ("<" ++ T ++ ">"))))))%string.
    rewrite !execFrom_step by reflexivity.
    now apply execFrom_here. }
  rewrite E. reflexivity.
Qed.

(** X21: bin/generate-dto.js removes everything from the first [<] to the
    last [>] of a raw type before it looks for type words, so it writes
    [any[]] for every [Array<T>], whatever [T] is (on one line); the
    generator looks inside the brackets and can find [string] there. *)
Theorem X21_Array_of_anything (T propName : string) :
  allChars isDot T = true ->
  Bin.mapType ("Array<" ++ T ++ ">") propName false false
  = (propName ++ ": any[];")%string.
Proof.
  intros H. unfold Bin.mapType.
  rewrite (generic_part_removed T H).
  change (trim "Array") with "Array"%string.
  change (test stringRe "Array") with false.
  change (test numberRe "Array") with false.
  change (test booleanRe "Array") with false.
  change (test dateRe "Array") with false.
  change (test bracketsRe "Array") with false.
  cbv iota.
  assert (A : test arrayOfRe ("Array<" ++ T ++ ">") = true).
  { unfold test.
    rewrite (exec_at_start arrayOfRe ("Array<" ++ T ++ ">") (T ++ ">") []);
      [reflexivity|].
    unfold matchAt, arrayOfRe, pattern, ignoreCase.
    now rewrite (m_Lit_app "Array<" (T ++ ">")). }
  now rewrite A.
Qed.

Lemma X21_Array_of_anything_witness :
  allChars isDot "string" = true
  /\ Bin.mapType ("Array<" ++ "string" ++ ">") "tags" false false
     = ("tags" ++ ": any[];")%string
  /\ canonical ("Array<" ++ "string" ++ ">") = "string".
Proof.
  split; [reflexivity|]. split; [|reflexivity].
  apply (X21_Array_of_anything "string" "tags"). reflexivity.
Defined.
